(** * scripts/run.py of instant-ngp: the training, evaluation and screenshot driver

    A shallow embedding of the command-line harness [scripts/run.py].

    Conventions of the embedding.
    - Python [int] is [Z]; Python and NumPy floats are real numbers ([R]):
      rounding, infinities and NaN are not modelled.
    - The Renderer ([pyngp.Testbed]) is external.  What the script reads from
      it is an input of the model (a list of observations for the training
      loop, the rendered image for an evaluation frame); what the script tells
      it is an output (a trace of events).
    - [common.py] is not part of the sources at hand: [mse2psnr],
      [linear_to_srgb], [srgb_to_linear] and [compute_error] are taken as
      parameters of the sections that use them.
    - A JSON object is a [gmap string _]; the files on disk are a
      [gset string] of paths. *)

From Stdlib Require Import ZArith List String Ascii Bool Lia Reals Lra.
From stdpp Require Import base gmap sets strings.
Import ListNotations.

Open Scope Z_scope.

(** ** Command-line arguments ([parse_args], lines 28-55)

    Only the options read by the modelled code.  [screenshot_frames] has
    [nargs="*"] and no default: it is [None] when the flag is absent and a
    (possibly empty) list when it is given; its items go through [int(idx)]
    at line 254 and are integers here. *)
Record Args := mkArgs {
  scene : string;
  screenshot_frames : option (list Z);
  screenshot_dir : string;
  screenshot_w : Z;
  screenshot_h : Z;
  screenshot_spp : Z;
  gui : bool;
  train : bool;
  n_steps : Z
}.

(** ** The training loop (lines 131, 146-170) *)
Module Training.

(** What one turn of [while testbed.frame():] reads from the Renderer. *)
Record FrameObs := mkObs {
  frame_ok : bool;        (* the value returned by testbed.frame() *)
  want_repl : bool;       (* testbed.want_repl() *)
  training_step : Z;      (* testbed.training_step *)
  loss : R                (* testbed.loss *)
}.

(** What the loop does to the outside world. *)
Inductive Event :=
| EvFrame                 (* testbed.frame() was called *)
| EvRepl                  (* repl(testbed) *)
| EvReset                 (* t.reset() *)
| EvUpdate (delta : Z)    (* t.update(delta) *)
| EvPostfix (l : R).      (* t.set_postfix(loss=l) *)

(** The variables the loop writes: [old_training_step],
    [testbed.shall_train] and the counter [t.n] of the progress bar. *)
Record LoopState := mkLoop {
  old_training_step : Z;
  shall_train : bool;
  bar_n : Z
}.

Inductive Control := Continue | Break.

(** How the run of the loop ended. *)
Inductive Outcome :=
| NotEntered      (* [if n_steps > 0] was false *)
| LoopBreak       (* [break] at line 161 *)
| FrameFalse      (* testbed.frame() returned False *)
| Pending.        (* the observations at hand are used up, the loop is still running *)

(** Lines 147-149. *)
Definition step_limit (a : Args) : Z :=
  if n_steps a <? 0 then 100000 else n_steps a.

(** Lines 131 and 146, and a fresh progress bar. *)
Definition init_state (a : Args) : LoopState :=
  {| old_training_step := 0;
     shall_train := if gui a then train a else true;
     bar_n := 0 |}.

(** Lines 154-170: the body of the loop, for one observation [o]. *)
Definition loop_body (a : Args) (limit : Z) (o : FrameObs) (s : LoopState)
  : Control * LoopState * list Event :=
  let ev_repl := if want_repl o then [EvRepl] else [] in
  let done := limit <=? training_step o in
  if done && negb (gui a) then (Break, s, ev_repl)
  else
    let flag := if done then false else shall_train s in
    let reset := (training_step o <? old_training_step s)
                 || (old_training_step s =? 0) in
    let old := if reset then 0 else old_training_step s in
    let n := if reset then 0 else bar_n s in
    let delta := training_step o - old in
    (Continue,
     {| old_training_step := training_step o;
        shall_train := flag;
        bar_n := n + delta |},
     ev_repl ++ (if reset then [EvReset] else [])
             ++ [EvUpdate delta; EvPostfix (loss o)]).

(** Line 153: [while testbed.frame():] over the observations at hand. *)
Fixpoint while_frame (a : Args) (limit : Z) (obs : list FrameObs) (s : LoopState)
  : Outcome * LoopState * list Event :=
  match obs with
  | [] => (Pending, s, [])
  | o :: rest =>
      if frame_ok o then
        match loop_body a limit o s with
        | (Break, s1, ev) => (LoopBreak, s1, EvFrame :: ev)
        | (Continue, s1, ev) =>
            let '(out, s2, ev2) := while_frame a limit rest s1 in
            (out, s2, EvFrame :: ev ++ ev2)
        end
      else (FrameFalse, s, [EvFrame])
  end.

(** Lines 146-170. *)
Definition train_loop (a : Args) (obs : list FrameObs)
  : Outcome * LoopState * list Event :=
  if 0 <? step_limit a then while_frame a (step_limit a) obs (init_state a)
  else (NotEntered, init_state a, []).

(** The arguments of the [t.update] calls of a trace, in order. *)
Definition updates (ev : list Event) : list Z :=
  flat_map (fun e => match e with EvUpdate d => [d] | _ => [] end) ev.

(** Observations of a run in which the Renderer keeps going and reports the
    given raw step counts. *)
Definition steps_obs (steps : list Z) : list FrameObs :=
  map (fun z => mkObs true false z 0%R) steps.

End Training.

(** ** Paths ([os.path], POSIX flavour) *)
Module Path.

Definition is_sep (c : ascii) : bool := Ascii.eqb c "/".

(** [c in s] for a one-character [c]. *)
Fixpoint contains (c : ascii) (s : string) : bool :=
  match s with
  | EmptyString => false
  | String x r => Ascii.eqb x c || contains c r
  end.

Definition startswith_sep (s : string) : bool :=
  match s with
  | String c _ => is_sep c
  | EmptyString => false
  end.

Fixpoint endswith_sep (s : string) : bool :=
  match s with
  | EmptyString => false
  | String c EmptyString => is_sep c
  | String _ r => endswith_sep r
  end.

(** [os.path.join(a, b)]. *)
Definition join (a b : string) : string :=
  if startswith_sep b then b
  else if String.eqb a "" || endswith_sep a then a +:+ b
  else a +:+ "/" +:+ b.

(** [(p[:i], p[i:])] for [i = p.rfind("/") + 1]. *)
Fixpoint split_at_last_sep (p : string) : string * string :=
  match p with
  | EmptyString => (EmptyString, EmptyString)
  | String c r =>
      let '(h, t) := split_at_last_sep r in
      match h with
      | EmptyString => if is_sep c then (String c EmptyString, r)
                       else (EmptyString, String c r)
      | _ => (String c h, t)
      end
  end.

(** [os.path.basename(p)]. *)
Definition basename (p : string) : string := snd (split_at_last_sep p).

Fixpoint all_sep (s : string) : bool :=
  match s with
  | EmptyString => true
  | String c r => is_sep c && all_sep r
  end.

(** [s.rstrip("/")]. *)
Fixpoint rstrip_sep (s : string) : string :=
  match s with
  | EmptyString => EmptyString
  | String c r => if all_sep r && is_sep c then EmptyString
                  else String c (rstrip_sep r)
  end.

(** [os.path.dirname(p)]. *)
Definition dirname (p : string) : string :=
  let head := fst (split_at_last_sep p) in
  if negb (String.eqb head "") && negb (all_sep head) then rstrip_sep head
  else head.

(** [os.path.isfile] on a disk holding exactly the regular files [files]. *)
Definition isfile_on (files : gset string) (p : string) : bool :=
  bool_decide (p ∈ files).

End Path.

(** ** The reference image of a test frame (lines 197-208) *)
Module RefImage.

(** The file name handed to [read_image] at line 209. *)
Definition ref_fname (isfile : string -> bool) (data_dir file_path : string)
  : string :=
  let p := if Path.contains "." file_path then file_path
           else file_path +:+ ".png" in
  let f0 := Path.join data_dir p in
  if isfile f0 then f0 else
  let f1 := Path.join data_dir (p +:+ ".png") in
  if isfile f1 then f1 else
  let f2 := Path.join data_dir (p +:+ ".jpg") in
  if isfile f2 then f2 else
  let f3 := Path.join data_dir (p +:+ ".jpeg") in
  if isfile f3 then f3 else
  Path.join data_dir (p +:+ ".exr").

(** The paths given to [os.path.isfile], in order, then the last resort,
    which is not probed. *)
Definition candidates (data_dir file_path : string) : list string :=
  let p := if Path.contains "." file_path then file_path
           else file_path +:+ ".png" in
  Path.join data_dir p ::
  map (fun ext => Path.join data_dir (p +:+ ext))
      [".png"; ".jpg"; ".jpeg"; ".exr"]%string.

End RefImage.

(** ** Camera poses (lines 214 and 256-257) *)
Module Pose.

(** A matrix as NumPy has it: its rows, in order. *)
Definition Matrix := list (list R).

(** [m[:-1, :]]: every row but the last, every column. *)
Definition drop_last_row (m : Matrix) : Matrix :=
  map (fun row => row) (removelast m).

(** [np.matrix(transform_matrix)[:-1,:]], the argument of
    [testbed.set_nerf_camera_matrix] in both the evaluation and the
    screenshot loop. *)
Definition camera_pose (transform_matrix : Matrix) : Matrix :=
  drop_last_row transform_matrix.

End Pose.

(** ** Manifests ([json.load] of a transforms file) *)
Record Frame := mkFrame {
  file_path : string;
  transform_matrix : Pose.Matrix
}.

(** The values found under the keys of a manifest: numbers, and the array
    of frames. *)
Inductive JValue :=
| JInt (z : Z)
| JFloat (x : R)
| JFrames (fs : list Frame).

(** The top-level JSON object; [len] of it is the number of its keys. *)
Abbreviation Transforms := (gmap string JValue).

(** Python exceptions the modelled code can raise. *)
Inductive Exn :=
| KeyError (key : string)
| TypeError
| IndexError
| ValueError
| FileNotFoundError (path : string)
| ZeroDivisionError.

(** ** Image buffers (NumPy arrays of shape (height, width, channels)) *)
Module Image.

(** The last axis of the array at one position. *)
Definition Pixel := list R.

(** Pixels in row-major order. *)
Record Image := mkImage {
  height : nat;          (* shape[0] *)
  width : nat;           (* shape[1] *)
  pixels : list Pixel
}.

Open Scope R_scope.

(** [p[lo:hi]] along the last axis. *)
Definition chan_slice (lo hi : nat) (p : Pixel) : Pixel :=
  firstn (hi - lo) (skipn lo p).

(** [p[lo:hi] = v] along the last axis, [v] of the shape of the slice. *)
Definition chan_assign (lo hi : nat) (p v : Pixel) : Pixel :=
  firstn lo p ++ v ++ skipn hi p.

(** [p[lo:hi] = c] for a scalar [c]. *)
Definition chan_fill (lo hi : nat) (p : Pixel) (c : R) : Pixel :=
  chan_assign lo hi p (map (fun _ => c) (chan_slice lo hi p)).

(** [p += t] along the last axis: [t] is broadcast when it has one channel,
    added channel by channel when it has as many as [p]; any other shape is
    NumPy's broadcast error. *)
Definition iadd (p t : Pixel) : option Pixel :=
  match t with
  | [v] => Some (map (fun x => x + v) p)
  | _ => if Nat.eqb (length t) (length p)
         then Some (map (fun xy => fst xy + snd xy) (combine p t))
         else None
  end.

(** [p - q] for two pixels of one shape. *)
Definition sub (p q : Pixel) : option Pixel :=
  if Nat.eqb (length p) (length q)
  then Some (map (fun xy => fst xy - snd xy) (combine p q))
  else None.

(** [x += (1.0 - x[...,3:4])] at one position (lines 210 and 217). *)
Definition composite_white (p : Pixel) : option Pixel :=
  iadd p (map (fun x => 1 - x) (chan_slice 3 4 p)).

(** An operation on the last axis, at every position. *)
Definition at_every_pixel (f : Pixel -> option Pixel) (im : Image)
  : option Image :=
  match mapM f (pixels im) with
  | Some ps => Some (mkImage (height im) (width im) ps)
  | None => None
  end.

Section ColorSpace.

(** [linear_to_srgb] and [srgb_to_linear] of common.py, on one value; NumPy
    applies them value by value. *)
Variables linear_to_srgb srgb_to_linear : R -> R.

(** Line 210. *)
Definition composite_ref (ref_image : Image) : option Image :=
  at_every_pixel composite_white ref_image.

(** Lines 216-218 at one position. *)
Definition composite_render_pixel (p : Pixel) : option Pixel :=
  let p1 := chan_assign 0 3 p (map linear_to_srgb (chan_slice 0 3 p)) in
  match composite_white p1 with
  | Some p2 => Some (chan_assign 0 3 p2 (map srgb_to_linear (chan_slice 0 3 p2)))
  | None => None
  end.

(** Lines 216-218. *)
Definition composite_render (image : Image) : option Image :=
  at_every_pixel composite_render_pixel image.

(** Lines 222-223: [np.absolute(image - ref_image)] with alpha forced to 1. *)
Definition diff_pixel (pq : Pixel * Pixel) : option Pixel :=
  match sub (fst pq) (snd pq) with
  | Some d => Some (chan_fill 3 4 (map Rabs d) 1)
  | None => None
  end.

Definition diff_image (image ref_image : Image) : option Image :=
  if Nat.eqb (length (pixels image)) (length (pixels ref_image)) then
    match mapM diff_pixel (combine (pixels image) (pixels ref_image)) with
    | Some ps => Some (mkImage (height image) (width image) ps)
    | None => None
    end
  else None.

(** [linear_to_srgb(x[...,:3])] (lines 227-228). *)
Definition srgb_of_rgb (im : Image) : Image :=
  mkImage (height im) (width im)
          (map (fun p => map linear_to_srgb (chan_slice 0 3 p)) (pixels im)).

(** The spec's words for the reference image: [rgb' = rgb + (1 - alpha)] on
    the values as they are (linear), for a pixel of four channels. *)
Definition spec_white_linear (p : Pixel) : Pixel :=
  match p with
  | [r; g; b; a] => [r + (1 - a); g + (1 - a); b + (1 - a); a + (1 - a)]
  | _ => p
  end.

(** The spec's words for the rendered image: RGB to sRGB, the same composite
    there, RGB back to linear; alpha is not converted. *)
Definition spec_white_srgb (p : Pixel) : Pixel :=
  match p with
  | [r; g; b; a] =>
      [srgb_to_linear (linear_to_srgb r + (1 - a));
       srgb_to_linear (linear_to_srgb g + (1 - a));
       srgb_to_linear (linear_to_srgb b + (1 - a));
       a + (1 - a)]
  | _ => p
  end.

End ColorSpace.

End Image.

(** ** The evaluation run (lines 176-244) *)
Module Evaluation.

Import Image.
Open Scope R_scope.

(** One piece of the formatted summary: literal text or a formatted number. *)
Inductive Piece :=
| Lit (s : string)
| Num (x : R).

(** What the run does to the outside world.  The constant settings of
    lines 189-192 and 194 (background, pixel centres, least alpha,
    [shall_train]) are left out. *)
Inductive Event :=
| EvSetFov (axis : Z) (fov : R)
| EvWriteImage (name : string) (im : Image)
| EvSetCamera (pose : Pose.Matrix)
| EvRender (w h : nat) (spp : Z)
| EvPostfix (psnr : R)
| EvPrint (line : list Piece).

(** Lines 181-186: the running totals. *)
Record Accum := mkAccum {
  totmse : R;
  totpsnr : R;
  totssim : Z;
  totcount : Z;
  minpsnr : R;
  maxpsnr : R
}.

Definition acc0 : Accum :=
  {| totmse := 0; totpsnr := 0; totssim := 0%Z; totcount := 0%Z;
     minpsnr := 1000; maxpsnr := 0 |}.

(** Lines 241-243: the values computed after the loop, and the line printed
    at line 244. *)
Record Summary := mkSummary {
  psnr_avgmse : R;
  psnr : R;
  ssim : R;
  printed : list Piece
}.

(** [n or 1]. *)
Definition or1 (n : Z) : Z := if (n =? 0)%Z then 1%Z else n.

(** [x / d] for an [int] divisor: division by zero is an exception. *)
Definition div_count (x : R) (d : Z) : option R :=
  if (d =? 0)%Z then None else Some (x / IZR d).

Section Metrics.

(** [mse2psnr] of common.py. *)
Variable mse2psnr : R -> R.

(** Lines 230-238: the totals after a frame of error [mse], and the value
    shown by [t.set_postfix]. *)
Definition accumulate (acc : Accum) (mse : R) : option (Accum * R) :=
  let ssim := 0%Z in
  let totssim := (totssim acc + ssim)%Z in
  let totmse := totmse acc + mse in
  let psnr := mse2psnr mse in
  let totpsnr := totpsnr acc + psnr in
  let minpsnr := if Rlt_dec psnr (minpsnr acc) then psnr else minpsnr acc in
  let maxpsnr := if Rgt_dec psnr (maxpsnr acc) then psnr else maxpsnr acc in
  let totcount := (totcount acc + 1)%Z in
  match div_count totpsnr (or1 totcount) with
  | Some shown =>
      Some ({| totmse := totmse; totpsnr := totpsnr; totssim := totssim;
               totcount := totcount; minpsnr := minpsnr; maxpsnr := maxpsnr |},
            shown)
  | None => None
  end.

(** Lines 241-244. *)
Definition summarize (acc : Accum) : option Summary :=
  match div_count (totmse acc) (or1 (totcount acc)) with
  | None => None
  | Some mean_mse =>
      let psnr_avgmse := mse2psnr mean_mse in
      match div_count (totpsnr acc) (or1 (totcount acc)) with
      | None => None
      | Some psnr =>
          match div_count (IZR (totssim acc)) (or1 (totcount acc)) with
          | None => None
          | Some ssim =>
              Some {| psnr_avgmse := psnr_avgmse;
                      psnr := psnr;
                      ssim := ssim;
                      printed := [Lit "psnr "; Num psnr;
                                  Lit " average, psnr range ";
                                  Num (minpsnr acc); Lit "-";
                                  Num (maxpsnr acc);
                                  Lit ", ssim "; Num ssim] |}
          end
      end
  end.

(** The totals after frames whose errors are [mses], in order. *)
Fixpoint accumulate_all (mses : list R) (acc : Accum) : option Accum :=
  match mses with
  | [] => Some acc
  | mse :: rest =>
      match accumulate acc mse with
      | Some (acc1, _) => accumulate_all rest acc1
      | None => None
      end
  end.

(** The summary of a run whose frames have the errors [mses]. *)
Definition summary_of (mses : list R) : option Summary :=
  match accumulate_all mses acc0 with
  | Some acc => summarize acc
  | None => None
  end.

(** The rest of common.py and the outside world. *)
Variables linear_to_srgb srgb_to_linear : R -> R.
Variable compute_error_MSE : Image -> Image -> R.
Variable isfile : string -> bool.
Variable read_image : string -> option Image.
Variable render : Pose.Matrix -> nat -> nat -> Z -> list Pixel.

(** Line 188. *)
Definition spp : Z := 8.

(** Lines 197-229 for the frame of index [i]: its events and its [mse]. *)
Definition frame_mse (data_dir : string) (i : nat) (frame : Frame)
  : list Event * (Exn + R) :=
  let ref_fname := RefImage.ref_fname isfile data_dir (file_path frame) in
  match read_image ref_fname with
  | None => ([], inl (FileNotFoundError ref_fname))
  | Some ref0 =>
  match composite_ref ref0 with
  | None => ([], inl ValueError)
  | Some ref_image =>
  let ev1 := if Nat.eqb i 0 then [EvWriteImage "ref.png" ref_image] else [] in
  let pose := Pose.camera_pose (transform_matrix frame) in
  let w := width ref_image in
  let h := height ref_image in
  let ev2 := ev1 ++ [EvSetCamera pose; EvRender w h spp] in
  match composite_render linear_to_srgb srgb_to_linear
          (mkImage h w (render pose w h spp)) with
  | None => (ev2, inl ValueError)
  | Some image =>
  let ev3 := ev2 ++ (if Nat.eqb i 0 then [EvWriteImage "out.png" image] else []) in
  match diff_image image ref_image with
  | None => (ev3, inl ValueError)
  | Some diffimg =>
  let ev4 := ev3 ++ (if Nat.eqb i 0 then [EvWriteImage "diff.png" diffimg] else []) in
  let A := srgb_of_rgb linear_to_srgb image in
  let R := srgb_of_rgb linear_to_srgb ref_image in
  (ev4, inr (compute_error_MSE A R))
  end end end end.

(** Lines 196-238: the loop over [enumerate(frames)], from index [i]. *)
Fixpoint eval_loop (data_dir : string) (i : nat) (frames : list Frame)
  (acc : Accum) : list Event * (Exn + Accum) :=
  match frames with
  | [] => ([], inr acc)
  | frame :: rest =>
      match frame_mse data_dir i frame with
      | (ev, inl e) => (ev, inl e)
      | (ev, inr mse) =>
          match accumulate acc mse with
          | None => (ev, inl ZeroDivisionError)
          | Some (acc1, shown) =>
              let '(ev', r) := eval_loop data_dir (S i) rest acc1 in
              (ev ++ EvPostfix shown :: ev', r)
          end
      end
  end.

(** [x * 180 / np.pi] for a JSON value [x]. *)
Definition fov_degrees (v : JValue) : option R :=
  match v with
  | JInt z => Some (IZR z * 180 / PI)
  | JFloat x => Some (x * 180 / PI)
  | _ => None
  end.

(** Lines 176-244, for the manifest [test_transforms] found in [data_dir]. *)
Definition evaluate (data_dir : string) (test_transforms : Transforms)
  : list Event * (Exn + Summary) :=
  match test_transforms !! "camera_angle_x"%string with
  | None => ([], inl (KeyError "camera_angle_x"))
  | Some angle =>
  match fov_degrees angle with
  | None => ([], inl TypeError)
  | Some fov =>
  let ev0 := [EvSetFov 0 fov] in
  match test_transforms !! "frames"%string with
  | None => (ev0, inl (KeyError "frames"))
  | Some (JFrames frames) =>
      match eval_loop data_dir 0 frames acc0 with
      | (ev, inl e) => (ev0 ++ ev, inl e)
      | (ev, inr acc) =>
          match summarize acc with
          | None => (ev0 ++ ev, inl ZeroDivisionError)
          | Some s => (ev0 ++ ev ++ [EvPrint (printed s)], inr s)
          end
      end
  | Some _ => (ev0, inl TypeError)
  end end end.

End Metrics.

(** A manifest without frames. *)
Definition no_frames : Transforms :=
  {[ "camera_angle_x"%string := JFloat 1; "frames"%string := JFrames [] ]}.

(** A manifest of one frame. *)
Definition one_frame : Transforms :=
  {[ "camera_angle_x"%string := JFloat 1;
     "frames"%string :=
       JFrames [ mkFrame "./test/r_0"
                   [[1; 0; 0; 0]; [0; 1; 0; 0]; [0; 0; 1; 4]; [0; 0; 0; 1]] ] ]}.

(** Modelled from the spec: [mse2psnr] is defined in common.py, which is not
    among the sources; the spec calls it the standard logarithmic mapping of
    an error to a peak signal-to-noise ratio, which for a peak of 1 is
    [-10 log10 x]. *)
Definition mse2psnr_log10 (x : R) : R := -10 * ln x / ln 10.

End Evaluation.

(** ** Screenshots (lines 246-269) *)
Module Screenshot.

Inductive Event :=
| EvSetFov (axis : Z) (fov : R)
| EvSetCamera (pose : Pose.Matrix)
| EvRender (w h spp : Z)
| EvMakedirs (dir : string)
| EvWriteImage (name : string).

(** [int(v)]: truncation towards zero for a float. *)
Definition py_int (v : JValue) : option Z :=
  match v with
  | JInt z => Some z
  | JFloat x => Some (if Rle_dec 0 x then Int_part x else - Int_part (- x))
  | JFrames _ => None
  end.

(** [l[i]] for a list: negative indices count from the end. *)
Definition py_index {A} (l : list A) (i : Z) : option A :=
  let n := Z.of_nat (length l) in
  if (0 <=? i) && (i <? n) then nth_error l (Z.to_nat i)
  else if (- n <=? i) && (i <? 0) then nth_error l (Z.to_nat (n + i))
  else None.

(** [list(range(n))]. *)
Definition py_range (n : nat) : list Z := map Z.of_nat (seq 0 n).

(** [explicit or int(ref_transforms[key])]. *)
Definition size_or (explicit : Z) (ref_transforms : Transforms) (key : string)
  : Exn + Z :=
  if explicit =? 0 then
    match ref_transforms !! key with
    | None => inl (KeyError key)
    | Some v => match py_int v with
                | Some z => inr z
                | None => inl TypeError
                end
    end
  else inr explicit.

(** Lines 254-262 for one index [idx]. *)
Definition shoot (a : Args) (ref_transforms : Transforms) (idx : Z)
  : list Event * option Exn :=
  match ref_transforms !! "frames"%string with
  | None => ([], Some (KeyError "frames"))
  | Some (JFrames frames) =>
      match py_index frames idx with
      | None => ([], Some IndexError)
      | Some f =>
          let cam_matrix := transform_matrix f in
          let ev1 := [EvSetCamera (Pose.camera_pose cam_matrix)] in
          let outname :=
            Path.join (screenshot_dir a) (Path.basename (file_path f)) in
          match size_or (screenshot_w a) ref_transforms "w" with
          | inl e => (ev1, Some e)
          | inr w =>
          match size_or (screenshot_h a) ref_transforms "h" with
          | inl e => (ev1, Some e)
          | inr h =>
              let ev2 := ev1 ++ [EvRender w h (screenshot_spp a)] in
              let dir := Path.dirname outname in
              if String.eqb dir "" then (ev2, Some (FileNotFoundError dir))
              else (ev2 ++ [EvMakedirs dir; EvWriteImage outname], None)
          end end
      end
  | Some _ => ([], Some TypeError)
  end.

(** Line 253: the [for] loop over the indices. *)
Fixpoint shoot_all (a : Args) (ref_transforms : Transforms) (idxs : list Z)
  : list Event * option Exn :=
  match idxs with
  | [] => ([], None)
  | idx :: rest =>
      match shoot a ref_transforms idx with
      | (ev, Some e) => (ev, Some e)
      | (ev, None) =>
          let '(ev', r) := shoot_all a ref_transforms rest in
          (ev ++ ev', r)
      end
  end.

(** Lines 250-251: the indices the loop runs over. *)
Definition frames_to_shoot (a : Args) (ref_transforms : Transforms)
  : Exn + list Z :=
  match screenshot_frames a with
  | None => inl TypeError                          (* len(None) *)
  | Some [] => inr (py_range (size ref_transforms))
  | Some idxs => inr idxs
  end.

(** Lines 246-269; [ref_transforms] is the empty object when no manifest was
    given, [network_stem] is the value computed at line 135. *)
Definition screenshots (a : Args) (ref_transforms : Transforms)
  (network_stem : string) : list Event * option Exn :=
  if screenshot_w a =? 0 then ([], None)
  else if Nat.eqb (size ref_transforms) 0 then
    let outname :=
      Path.join (screenshot_dir a) (scene a +:+ "_" +:+ network_stem) in
    let ev := [EvRender (screenshot_w a) (screenshot_h a) (screenshot_spp a)] in
    let dir := Path.dirname outname in
    (ev ++ (if String.eqb dir "" then [] else [EvMakedirs dir])
        ++ [EvWriteImage (outname +:+ ".png")], None)
  else
    match ref_transforms !! "camera_angle_x"%string with
    | None => ([], Some (KeyError "camera_angle_x"))
    | Some angle =>
    match Evaluation.fov_degrees angle with
    | None => ([], Some TypeError)
    | Some fov =>
        let ev0 := [EvSetFov 0 fov] in
        match frames_to_shoot a ref_transforms with
        | inl e => (ev0, Some e)
        | inr idxs =>
            let '(ev, r) := shoot_all a ref_transforms idxs in
            (ev0 ++ ev, r)
        end
    end end.

(** The frames rendered by a trace, as the poses given to the Renderer, and
    the files written. *)
Definition written (ev : list Event) : list string :=
  flat_map (fun e => match e with EvWriteImage n => [n] | _ => [] end) ev.

Definition poses (ev : list Event) : list Pose.Matrix :=
  flat_map (fun e => match e with EvSetCamera m => [m] | _ => [] end) ev.

(** A manifest of three frames that holds nothing but [camera_angle_x] and
    [frames]. *)
Definition three_frames : Transforms :=
  {[ "camera_angle_x"%string := JFloat 1%R;
     "frames"%string :=
       JFrames [ mkFrame "./train/r_0.png" [];
                 mkFrame "./train/r_1.png" [];
                 mkFrame "./train/r_2.png" [] ] ]}.

End Screenshot.

(** ** Start-up: mode, network configuration and window (lines 61-135) *)
Module Setup.

(** An entry of the scene tables of scenes.py, as far as the script reads
    it: [data_dir], [dataset] and the optional [network]. *)
Record SceneEntry := mkScene {
  scene_data_dir : string;
  scene_dataset : string;
  scene_network : option string
}.

Abbreviation Scenes := (gmap string SceneEntry).

(** [scene in scenes]. *)
Definition in_scenes (scene : string) (scenes : Scenes) : bool :=
  bool_decide (is_Some (scenes !! scene)).

Section Dispatch.

(** The tables of scenes.py and [ROOT_DIR] of common.py. *)
Variables scenes_nerf scenes_image scenes_sdf scenes_volume : Scenes.
Variable ROOT_DIR : string.

(** Lines 61-71: [args.mode] after the inference from the scene. *)
Definition infer_mode (mode scene : string) : Exn + string :=
  if String.eqb mode "" then
    if in_scenes scene scenes_sdf then inr "sdf"%string
    else if in_scenes scene scenes_nerf then inr "nerf"%string
    else if in_scenes scene scenes_image then inr "image"%string
    else if in_scenes scene scenes_volume then inr "volume"%string
    else inl ValueError
  else inr mode.

(** Lines 73-88: the directory of the configurations and the table of the
    mode; [None] for a mode that is none of the four, which leaves the
    variables unbound. *)
Definition mode_tables (mode : string) : option (string * Scenes) :=
  let configs := Path.join ROOT_DIR "configs" in
  if String.eqb mode "sdf" then Some (Path.join configs "sdf", scenes_sdf)
  else if String.eqb mode "volume" then Some (Path.join configs "volume", scenes_volume)
  else if String.eqb mode "nerf" then Some (Path.join configs "nerf", scenes_nerf)
  else if String.eqb mode "image" then Some (Path.join configs "image", scenes_image)
  else None.

End Dispatch.

(** [os.path.isabs]. *)
Definition isabs (p : string) : bool := Path.startswith_sep p.

(** Lines 90-96: the network configuration handed to the Renderer;
    [network_arg] is [args.network]. *)
Definition network_path (configs_dir : string) (scenes : Scenes)
  (scene network_arg : string) : string :=
  let base_network :=
    match scenes !! scene with
    | Some entry =>
        let network := match scene_network entry with
                       | Some n => n
                       | None => "base"%string
                       end in
        Path.join configs_dir (network +:+ ".json")
    | None => Path.join configs_dir "base.json"
    end in
  let network := if String.eqb network_arg "" then base_network
                 else network_arg in
  if isabs network then network else Path.join configs_dir network.

(** The part of [name] before its last dot and the part from that dot on,
    when [name] has a dot. *)
Fixpoint split_last_dot (name : string) : option (string * string) :=
  match name with
  | EmptyString => None
  | String c r =>
      match split_last_dot r with
      | Some (b, e) => Some (String c b, e)
      | None => if Ascii.eqb c "." then Some (EmptyString, name) else None
      end
  end.

Fixpoint all_dots (s : string) : bool :=
  match s with
  | EmptyString => true
  | String c r => Ascii.eqb c "." && all_dots r
  end.

(** [os.path.splitext] on a name without separator: leading dots do not
    start an extension. *)
Definition splitext_name (name : string) : string * string :=
  match split_last_dot name with
  | Some (b, e) => if all_dots b then (name, EmptyString) else (b, e)
  | None => (name, EmptyString)
  end.

(** Line 135. *)
Definition network_stem (network : string) : string :=
  fst (splitext_name (Path.basename network)).

(** [int(x / 2)] for an [int] x: the quotient rounded towards zero (the
    float division is exact for any size a window can have). *)
Definition half (x : Z) : Z := Z.quot x 2.

(** Lines 126-128, run for at most [fuel] turns. *)
Fixpoint shrink (fuel : nat) (sw sh : Z) : Z * Z :=
  if sw * sh >? 1920 * 1080 * 4 then
    match fuel with
    | O => (sw, sh)
    | S fuel' => shrink fuel' (half sw) (half sh)
    end
  else (sw, sh).

(** Lines 124-128: the size given to [testbed.init_window].  The number of
    turns is bounded by the binary logarithm of the area. *)
Definition window_size (a : Args) : Z * Z :=
  let sw := if screenshot_w a =? 0 then 1920 else screenshot_w a in
  let sh := if screenshot_h a =? 0 then 1080 else screenshot_h a in
  shrink (Z.to_nat (Z.log2 (sw * sh))) sw sh.

End Setup.

(** ** Reading the trace of an evaluation run *)
Module EvalTrace.

Import Evaluation.

(** The lines printed. *)
Definition prints (ev : list Event) : list (list Piece) :=
  flat_map (fun e => match e with EvPrint l => [l] | _ => [] end) ev.

(** The poses given to [set_nerf_camera_matrix], in order. *)
Definition cameras (ev : list Event) : list Pose.Matrix :=
  flat_map (fun e => match e with EvSetCamera m => [m] | _ => [] end) ev.

(** The samples per pixel of the calls of [render], in order. *)
Definition renders (ev : list Event) : list Z :=
  flat_map (fun e => match e with EvRender _ _ spp => [spp] | _ => [] end) ev.

(** The names of the files written, in order. *)
Definition writes (ev : list Event) : list string :=
  flat_map (fun e => match e with EvWriteImage n _ => [n] | _ => [] end) ev.

(** The three debug images, written for the frame of index 0 only. *)
Definition debug_images (i : nat) : list string :=
  if Nat.eqb i 0 then ["ref.png"; "out.png"; "diff.png"]%string else [].

(** The failures of a frame: its reference image cannot be read, or an
    image has a shape NumPy cannot work with. *)
Definition frame_failure (isfile : string -> bool)
  (read_image : string -> option Image.Image)
  (data_dir : string) (frame : Frame) (e : Exn) : Prop :=
  e = ValueError
  \/ (e = FileNotFoundError
            (RefImage.ref_fname isfile data_dir (file_path frame))
      /\ read_image (RefImage.ref_fname isfile data_dir (file_path frame))
         = None).

End EvalTrace.

(** * Properties *)

(** ** The training loop *)
Section TrainingFacts.

Import Training.

Lemma updates_app (e1 e2 : list Event) :
  updates (e1 ++ e2) = updates e1 ++ updates e2.
Proof. unfold updates. apply flat_map_app. Qed.

Lemma updates_repl (o : FrameObs) :
  updates (if want_repl o then [EvRepl] else []) = [].
Proof. destruct (want_repl o); reflexivity. Qed.

(** The events of a turn that goes on, spelled out. *)
Lemma loop_body_continue (a : Args) (limit : Z) (o : FrameObs) (s s1 : LoopState)
  (ev : list Event) :
  loop_body a limit o s = (Continue, s1, ev) ->
  let reset := (training_step o <? old_training_step s)
               || (old_training_step s =? 0) in
  let old := if reset then 0 else old_training_step s in
  old_training_step s1 = training_step o
  /\ bar_n s1 = (if reset then 0 else bar_n s) + (training_step o - old)
  /\ updates ev = [training_step o - old]
  /\ (reset = true -> In EvReset ev).
Proof.
  unfold loop_body. intros H.
  destruct (_ && negb (gui a)); [discriminate|].
  injection H as <- <-. cbn zeta.
  repeat split.
  - rewrite !updates_app, updates_repl.
    destruct (_ || _); reflexivity.
  - intros ->. apply in_or_app. right. now left.
Qed.

Lemma loop_body_break (a : Args) (limit : Z) (o : FrameObs) (s s1 : LoopState)
  (ev : list Event) :
  loop_body a limit o s = (Break, s1, ev) -> updates ev = [].
Proof.
  unfold loop_body.
  destruct (_ && negb (gui a)); [|discriminate].
  intros [= _ <-]. apply updates_repl.
Qed.

(** The invariant of the loop: [old_training_step] is never negative. *)
Lemma while_frame_updates_nonneg (a : Args) (limit : Z) (obs : list FrameObs) :
  Forall (fun o => 0 <= training_step o) obs ->
  forall s, 0 <= old_training_step s ->
  Forall (fun d => 0 <= d) (updates (snd (while_frame a limit obs s))).
Proof.
  induction 1 as [|o rest Ho Hrest IH]; intros s Hs; cbn [while_frame].
  - constructor.
  - destruct (frame_ok o); [|cbn; constructor].
    destruct (loop_body a limit o s) as [[c s1] ev] eqn:Hb.
    destruct c.
    + apply loop_body_continue in Hb as (Hold & _ & Hup & _).
      specialize (IH s1 ltac:(lia)).
      destruct (while_frame a limit rest s1) as [[out s2] ev2].
      cbn [snd] in *.
      change (EvFrame :: ev ++ ev2) with ([EvFrame] ++ ev ++ ev2).
      rewrite !updates_app, Hup. cbn [updates flat_map app].
      constructor; [|exact IH].
      destruct ((training_step o <? old_training_step s)
                || (old_training_step s =? 0)) eqn:E; [lia|].
      apply orb_false_elim in E as [E _]. lia.
    + apply loop_body_break in Hb. cbn [snd].
      change (EvFrame :: ev) with ([EvFrame] ++ ev).
      rewrite updates_app, Hb. constructor.
Qed.

(** With no step requested the loop is not entered: the Renderer's
    [frame()] is never called. *)
Lemma train_loop_zero (a : Args) (obs : list FrameObs) :
  n_steps a = 0 -> train_loop a obs = (NotEntered, init_state a, []).
Proof.
  intros H. unfold train_loop, step_limit. rewrite H. reflexivity.
Qed.

(** The step counts of the spec's scenario: a reset after the third turn. *)
Example updates_after_reset :
  updates (snd (train_loop (mkArgs "" None "" 0 0 16 false false (-1))
                           (steps_obs [5; 8; 8; 2; 2; 9])))
  = [5; 3; 0; 2; 0; 7].
Proof. reflexivity. Qed.

(** C5.  When the Renderer reports step counts that are not negative, no
    argument of [t.update] is negative; and in a turn where the step is below
    the one seen before, or the one seen before is 0, the bar is reset and
    the update is counted from zero. *)
Theorem progress_updates_nonneg (a : Args) (obs : list FrameObs) :
  Forall (fun o => 0 <= training_step o) obs ->
  Forall (fun d => 0 <= d) (updates (snd (train_loop a obs)))
  /\ (forall limit o s s1 ev,
        loop_body a limit o s = (Continue, s1, ev) ->
        training_step o < old_training_step s \/ old_training_step s = 0 ->
        In EvReset ev
        /\ updates ev = [training_step o]
        /\ bar_n s1 = training_step o).
Proof.
  intros Hobs. split.
  - unfold train_loop. destruct (0 <? step_limit a).
    + apply while_frame_updates_nonneg; [exact Hobs|]. cbn. lia.
    + constructor.
  - intros limit o s s1 ev Hb Hreset.
    apply loop_body_continue in Hb as (_ & Hn & Hup & Hin).
    assert (E : (training_step o <? old_training_step s)
                || (old_training_step s =? 0) = true).
    { apply orb_true_iff. destruct Hreset; [left|right]; lia. }
    rewrite E in *. rewrite Z.sub_0_r in *.
    repeat split; auto.
Qed.

Lemma progress_updates_nonneg_witness :
  Forall (fun d => 0 <= d)
    (updates (snd (train_loop (mkArgs "" None "" 0 0 16 false false (-1))
                              (steps_obs [5; 8; 8; 2; 2; 9]))))
  /\ (In EvReset [EvReset; EvUpdate 2; EvPostfix 0%R]
      /\ updates [EvReset; EvUpdate 2; EvPostfix 0%R] = [2]
      /\ bar_n (mkLoop 2 true 2) = 2).
Proof.
  assert (H : Forall (fun o => 0 <= training_step o)
                     (steps_obs [5; 8; 8; 2; 2; 9])).
  { repeat (constructor; [cbn; lia|]). constructor. }
  split.
  - apply (progress_updates_nonneg
             (mkArgs "" None "" 0 0 16 false false (-1))
             (steps_obs [5; 8; 8; 2; 2; 9]) H).
  - apply (proj2 (progress_updates_nonneg
                    (mkArgs "" None "" 0 0 16 false false (-1))
                    (steps_obs [5; 8; 8; 2; 2; 9]) H)
             100000 (mkObs true false 2 0%R) (mkLoop 8 true 16)).
    + reflexivity.
    + left. cbn. lia.
Defined.

(** Without a window, a turn that sees the limit reached leaves the loop
    at once: nothing is updated and later observations are not read. *)
Lemma while_frame_limit_batch (a : Args) (limit : Z) (o : FrameObs)
  (rest : list FrameObs) (s : LoopState) :
  gui a = false -> frame_ok o = true -> limit <= training_step o ->
  while_frame a limit (o :: rest) s
  = (LoopBreak, s, EvFrame :: (if want_repl o then [EvRepl] else [])).
Proof.
  intros Hg Hf Hl. cbn [while_frame]. rewrite Hf. unfold loop_body.
  rewrite Hg. replace (limit <=? training_step o) with true by lia.
  reflexivity.
Qed.

(** With a window, such a turn clears the training flag and goes on. *)
Lemma loop_body_limit_gui (a : Args) (limit : Z) (o : FrameObs) (s : LoopState) :
  gui a = true -> limit <= training_step o ->
  exists s1 ev, loop_body a limit o s = (Continue, s1, ev)
                /\ shall_train s1 = false.
Proof.
  intros Hg Hl. unfold loop_body. rewrite Hg.
  replace (limit <=? training_step o) with true by lia.
  cbn [andb negb]. eauto.
Qed.

(** With a window the loop never takes the [break]. *)
Lemma while_frame_gui_no_break (a : Args) (limit : Z) (obs : list FrameObs) :
  gui a = true ->
  forall s, fst (fst (while_frame a limit obs s)) <> LoopBreak.
Proof.
  intros Hg. induction obs as [|o rest IH]; intros s; cbn [while_frame].
  - discriminate.
  - destruct (frame_ok o); [|discriminate].
    unfold loop_body. rewrite Hg, andb_false_r.
    match goal with |- context [while_frame a limit rest ?s1] =>
      specialize (IH s1); destruct (while_frame a limit rest s1) as [[out s2] ev2]
    end.
    exact IH.
Qed.

(** C6.  When the limit is positive the loop is entered, and a turn in which
    the step count has reached the limit ends the loop when there is no
    window; with a window it clears [shall_train] and the loop goes on with
    the next observation, and never breaks.  With [--n_steps 0] the loop is
    not entered. *)
Theorem limit_reached_leaves_running (a : Args) (o : FrameObs)
  (rest : list FrameObs) (s : LoopState) :
  (0 < step_limit a -> frame_ok o = true -> step_limit a <= training_step o ->
     (forall obs, train_loop a obs
                  = while_frame a (step_limit a) obs (init_state a))
     /\ (gui a = false ->
           while_frame a (step_limit a) (o :: rest) s
           = (LoopBreak, s, EvFrame :: (if want_repl o then [EvRepl] else [])))
     /\ (gui a = true ->
           (exists s1 ev,
              loop_body a (step_limit a) o s = (Continue, s1, ev)
              /\ shall_train s1 = false
              /\ while_frame a (step_limit a) (o :: rest) s
                 = (let '(out, s2, ev2) := while_frame a (step_limit a) rest s1 in
                    (out, s2, EvFrame :: ev ++ ev2)))
           /\ forall obs s', fst (fst (while_frame a (step_limit a) obs s'))
                             <> LoopBreak))
  /\ (n_steps a = 0 ->
        forall obs, train_loop a obs = (NotEntered, init_state a, [])).
Proof.
  split.
  - intros Hpos Hf Hl. split; [|split; intros Hg].
    + intros obs. unfold train_loop.
      replace (0 <? step_limit a) with true by lia. reflexivity.
    + now apply while_frame_limit_batch.
    + split.
      * destruct (loop_body_limit_gui a (step_limit a) o s Hg Hl)
          as (s1 & ev & Hb & Hflag).
        exists s1, ev. repeat split; auto.
        cbn [while_frame]. rewrite Hf, Hb. reflexivity.
      * intros obs s'. now apply while_frame_gui_no_break.
  - intros H obs. now apply train_loop_zero.
Qed.

Lemma limit_reached_leaves_running_witness :
  while_frame (mkArgs "" None "" 0 0 16 false false 3) 3
              (steps_obs [3; 4]) (mkLoop 2 true 2)
  = (LoopBreak, mkLoop 2 true 2, [EvFrame])
  /\ fst (fst (while_frame (mkArgs "" None "" 0 0 16 true true 3) 3
                           (steps_obs [3; 4]) (mkLoop 2 true 2)))
     <> LoopBreak.
Proof.
  split.
  - pose proof (limit_reached_leaves_running
                  (mkArgs "" None "" 0 0 16 false false 3)
                  (mkObs true false 3 0%R) (steps_obs [4]) (mkLoop 2 true 2))
      as [H _].
    destruct H as (_ & H & _); [reflexivity | reflexivity | cbn; lia |].
    exact (H eq_refl).
  - pose proof (limit_reached_leaves_running
                  (mkArgs "" None "" 0 0 16 true true 3)
                  (mkObs true false 3 0%R) (steps_obs [4]) (mkLoop 2 true 2))
      as [H _].
    destruct H as (_ & _ & H); [reflexivity | reflexivity | cbn; lia |].
    destruct (H eq_refl) as [_ H']. apply H'.
Defined.

(** C9.  A negative [--n_steps] (the default, -1) gives the loop the limit
    100000: the loop runs with it and, without a window, ends at the first
    turn whose step count is 100000 or more.  With [--n_steps 0] no turn is
    run and the Renderer's [frame()] is not called. *)
Theorem default_step_limit (a : Args) (obs : list FrameObs) :
  (n_steps a < 0 ->
     step_limit a = 100000
     /\ train_loop a obs = while_frame a 100000 obs (init_state a)
     /\ (gui a = false ->
         forall o rest s, frame_ok o = true -> 100000 <= training_step o ->
           fst (fst (while_frame a 100000 (o :: rest) s)) = LoopBreak))
  /\ (n_steps a = 0 -> train_loop a obs = (NotEntered, init_state a, [])).
Proof.
  split.
  - intros Hneg.
    assert (E : step_limit a = 100000).
    { unfold step_limit. replace (n_steps a <? 0) with true by lia. reflexivity. }
    repeat split.
    + exact E.
    + unfold train_loop. rewrite E. reflexivity.
    + intros Hg o rest s Hf Hl.
      rewrite while_frame_limit_batch by assumption. reflexivity.
  - now apply train_loop_zero.
Qed.

Lemma default_step_limit_witness :
  step_limit (mkArgs "" None "" 0 0 16 false false (-1)) = 100000
  /\ train_loop (mkArgs "" None "" 0 0 16 false false 0) (steps_obs [1; 2])
     = (NotEntered, init_state (mkArgs "" None "" 0 0 16 false false 0), []).
Proof.
  split.
  - apply (default_step_limit (mkArgs "" None "" 0 0 16 false false (-1)) []).
    cbn; lia.
  - apply (default_step_limit (mkArgs "" None "" 0 0 16 false false 0)
             (steps_obs [1; 2])).
    reflexivity.
Defined.

End TrainingFacts.

(** ** The reference image of a test frame *)
Section RefImageFacts.

Import RefImage.

Example join_relative : Path.join "data" "frame_01.png" = "data/frame_01.png"%string.
Proof. reflexivity. Qed.

Example join_absolute : Path.join "data" "/abs/x.png" = "/abs/x.png"%string.
Proof. reflexivity. Qed.

Example basename_nested : Path.basename "./train/r_0.png" = "r_0.png"%string.
Proof. reflexivity. Qed.

Example dirname_nested : Path.dirname "out//r_0.png" = "out"%string.
Proof. reflexivity. Qed.

Example dirname_bare : Path.dirname "r_0.png" = ""%string.
Proof. reflexivity. Qed.

(** Whatever is on disk, the name chosen is one of the five candidates. *)
Lemma ref_fname_in_candidates (isfile : string -> bool) (data_dir p : string) :
  In (ref_fname isfile data_dir p) (candidates data_dir p).
Proof.
  unfold ref_fname, candidates. cbn [map].
  repeat match goal with
         | |- context [if isfile ?f then _ else _] => destruct (isfile f)
         end; cbn; tauto.
Qed.

(** A path with a dot in it (as in "./test/r_0") is tried as it is, then
    with the four extensions in order: here the fallback finds the .jpg. *)
Example ref_fname_dotted_finds_jpg :
  ref_fname (Path.isfile_on {[ "data/./test/r_0.jpg"%string ]}) "data" "./test/r_0"
  = "data/./test/r_0.jpg"%string.
Proof. vm_compute. reflexivity. Qed.

(** C1.  For the file_path "frame_01" and a disk that holds frame_01.jpg
    only, the name handed to [read_image] is frame_01.png.exr, which is not
    on disk: line 199 has already appended ".png" when the fallbacks append
    their extensions, so frame_01.jpg is not among the names tried. *)
Theorem ref_fname_extensionless_misses_jpg :
  let isfile := Path.isfile_on {[ "data/frame_01.jpg"%string ]} in
  ref_fname isfile "data" "frame_01" = "data/frame_01.png.exr"%string
  /\ isfile (ref_fname isfile "data" "frame_01") = false
  /\ isfile "data/frame_01.jpg" = true
  /\ candidates "data" "frame_01"
     = [ "data/frame_01.png"; "data/frame_01.png.png"; "data/frame_01.png.jpg";
         "data/frame_01.png.jpeg"; "data/frame_01.png.exr" ]%string.
Proof. vm_compute. repeat split; reflexivity. Qed.

End RefImageFacts.

(** ** Camera poses *)
Section PoseFacts.

Import Pose.
Open Scope R_scope.

Lemma camera_pose_firstn (m : Matrix) :
  camera_pose m = firstn (length m - 1) m.
Proof.
  unfold camera_pose, drop_last_row. rewrite map_id.
  rewrite removelast_firstn_len. f_equal. lia.
Qed.

(** C2, as stated, fails: a matrix that is already 3x4 does not pass
    through, it loses its third row. *)
Lemma camera_pose_3x4_loses_row :
  let m := [[1; 0; 0; 0]; [0; 1; 0; 0]; [0; 0; 1; 0]] in
  length m = 3%nat
  /\ Forall (fun row => length row = 4%nat) m
  /\ camera_pose m = [[1; 0; 0; 0]; [0; 1; 0; 0]]
  /\ camera_pose m <> m
  /\ camera_pose m <> firstn 3 m.
Proof.
  cbn. split; [reflexivity|]. split; [repeat constructor|].
  split; [reflexivity|]. split; intros H; discriminate H.
Qed.

(** C2, amended.  The pose given to the Renderer is the transform matrix
    without its last row, each remaining row whole: the top three rows of a
    matrix of four rows, and only the top two of a matrix of three. *)
Theorem camera_pose_drops_last_row (m : Matrix) :
  camera_pose m = firstn (length m - 1) m
  /\ (length m = 4%nat -> camera_pose m = firstn 3 m)
  /\ (length m = 3%nat -> camera_pose m = firstn 2 m).
Proof.
  repeat split.
  - apply camera_pose_firstn.
  - intros H. rewrite camera_pose_firstn, H. reflexivity.
  - intros H. rewrite camera_pose_firstn, H. reflexivity.
Qed.

Lemma camera_pose_drops_last_row_witness :
  camera_pose [[1; 0; 0; 5]; [0; 1; 0; 6]; [0; 0; 1; 7]; [0; 0; 0; 1]]
  = [[1; 0; 0; 5]; [0; 1; 0; 6]; [0; 0; 1; 7]].
Proof.
  apply (camera_pose_drops_last_row
           [[1; 0; 0; 5]; [0; 1; 0; 6]; [0; 0; 1; 7]; [0; 0; 0; 1]]).
  reflexivity.
Defined.

End PoseFacts.

(** ** Screenshots *)
Section ScreenshotFacts.

Import Screenshot.
Open Scope R_scope.

Example py_index_negative : py_index [10; 20; 30]%Z (-1) = Some 30%Z.
Proof. reflexivity. Qed.

Example py_index_out_of_range : py_index [10; 20; 30]%Z 3 = None.
Proof. reflexivity. Qed.

(** With the flag given without values, the indices are those of the keys
    of the manifest, not of its frames. *)
Lemma frames_to_shoot_default (a : Args) (ref_transforms : Transforms) :
  screenshot_frames a = Some [] ->
  frames_to_shoot a ref_transforms = inr (py_range (size ref_transforms)).
Proof. unfold frames_to_shoot. now intros ->. Qed.

(** Without the flag, [len(args.screenshot_frames)] is [len(None)]. *)
Lemma frames_to_shoot_absent (a : Args) (ref_transforms : Transforms) :
  screenshot_frames a = None ->
  frames_to_shoot a ref_transforms = inl TypeError.
Proof. unfold frames_to_shoot. now intros ->. Qed.

(** C4.  For a manifest of three frames and two keys, and
    [--screenshot_frames] given without values, two files are written, not
    three: the default at line 251 is [range(len(ref_transforms))], the
    number of keys of the manifest.  Without the flag nothing is written at
    all: line 250 raises on [len(None)]. *)
Theorem screenshots_default_counts_keys :
  let a := mkArgs "lego" (Some []) "out" 800 800 16 false false 0 in
  let a' := mkArgs "lego" None "out" 800 800 16 false false 0 in
  size three_frames = 2%nat
  /\ written (fst (screenshots a three_frames "base"))
     = [ "out/r_0.png"; "out/r_1.png" ]%string
  /\ snd (screenshots a three_frames "base") = None
  /\ written (fst (screenshots a' three_frames "base")) = []
  /\ snd (screenshots a' three_frames "base") = Some TypeError.
Proof. cbv zeta. repeat split; reflexivity. Qed.

End ScreenshotFacts.

(** ** Compositing *)
Section ImageFacts.

Import Image.
Open Scope R_scope.

Variables linear_to_srgb srgb_to_linear : R -> R.

Lemma mapM_pointwise {A B} (P : A -> Prop) (f : A -> option B) (g : A -> B)
  (l : list A) :
  (forall x, P x -> f x = Some (g x)) ->
  Forall P l -> mapM f l = Some (map g l).
Proof.
  intros Hfg Hl. apply mapM_Some_2.
  induction Hl as [|x l Hx Hl IH]; cbn; constructor; auto.
Qed.

Lemma four_channels (p : Pixel) :
  length p = 4%nat -> exists r g b a, p = [r; g; b; a].
Proof.
  destruct p as [|r [|g [|b [|a [|]]]]]; try discriminate. eauto.
Qed.

Lemma composite_white_rgba (p : Pixel) :
  length p = 4%nat -> composite_white p = Some (spec_white_linear p).
Proof.
  intros H. destruct (four_channels p H) as (r & g & b & a & ->). reflexivity.
Qed.

Lemma composite_render_pixel_rgba (p : Pixel) :
  length p = 4%nat ->
  composite_render_pixel linear_to_srgb srgb_to_linear p
  = Some (spec_white_srgb linear_to_srgb srgb_to_linear p).
Proof.
  intros H. destruct (four_channels p H) as (r & g & b & a & ->). reflexivity.
Qed.

Lemma composite_ref_rgba (ref_image : Image) :
  Forall (fun p => length p = 4%nat) (pixels ref_image) ->
  composite_ref ref_image
  = Some (mkImage (height ref_image) (width ref_image)
                  (map spec_white_linear (pixels ref_image))).
Proof.
  intros H. unfold composite_ref, at_every_pixel.
  now rewrite (mapM_pointwise _ _ spec_white_linear _ composite_white_rgba H).
Qed.

Lemma composite_render_rgba (image : Image) :
  Forall (fun p => length p = 4%nat) (pixels image) ->
  composite_render linear_to_srgb srgb_to_linear image
  = Some (mkImage (height image) (width image)
            (map (spec_white_srgb linear_to_srgb srgb_to_linear)
                 (pixels image))).
Proof.
  intros H. unfold composite_render, at_every_pixel.
  now rewrite (mapM_pointwise _ _ (spec_white_srgb linear_to_srgb srgb_to_linear)
                 _ composite_render_pixel_rgba H).
Qed.

Lemma spec_white_linear_rgba (ps : list Pixel) :
  Forall (fun p => length p = 4%nat) ps ->
  Forall (fun p => length p = 4%nat) (map spec_white_linear ps).
Proof.
  induction 1 as [|p ps Hp _ IH]; cbn [map]; constructor; [|exact IH].
  destruct (four_channels p Hp) as (r & g & b & a & ->). reflexivity.
Qed.

Lemma spec_white_srgb_rgba (ps : list Pixel) :
  Forall (fun p => length p = 4%nat) ps ->
  Forall (fun p => length p = 4%nat)
         (map (spec_white_srgb linear_to_srgb srgb_to_linear) ps).
Proof.
  induction 1 as [|p ps Hp _ IH]; cbn [map]; constructor; [|exact IH].
  destruct (four_channels p Hp) as (r & g & b & a & ->). reflexivity.
Qed.

(** Two RGBA images of one size have a difference image. *)
Lemma diff_image_rgba (image ref_image : Image) :
  Forall (fun p => length p = 4%nat) (pixels image) ->
  Forall (fun p => length p = 4%nat) (pixels ref_image) ->
  length (pixels image) = length (pixels ref_image) ->
  exists diffimg, diff_image image ref_image = Some diffimg.
Proof.
  intros Hi Hr Hlen. unfold diff_image.
  rewrite Hlen, Nat.eqb_refl.
  assert (Hs : is_Some (mapM diff_pixel (combine (pixels image) (pixels ref_image)))).
  { apply mapM_is_Some_2. clear Hlen.
    revert Hr. generalize (pixels ref_image).
    induction Hi as [|p ps Hp _ IH]; intros qs Hq; [constructor|].
    destruct Hq as [|q qs Hq Hqs]; [constructor|].
    cbn [combine]. constructor; [|now apply IH].
    unfold compose, diff_pixel, sub. cbn [fst snd].
    rewrite Hp, Hq. cbn. eauto. }
  destruct Hs as [ps ->]. eauto.
Qed.

(** A pixel without alpha cannot be composited: NumPy cannot broadcast the
    empty slice [3:4] onto three channels. *)
Example composite_white_rgb : composite_white [1; 1; 1] = None.
Proof. reflexivity. Qed.

End ImageFacts.

(** ** One evaluation frame *)
Section FrameFacts.

Import Image Evaluation.
Open Scope R_scope.

Variables linear_to_srgb srgb_to_linear : R -> R.
Variable compute_error_MSE : Image -> Image -> R.
Variable isfile : string -> bool.
Variable read_image : string -> option Image.
Variable render : Pose.Matrix -> nat -> nat -> Z -> list Pixel.

(** C7.  In an evaluation frame whose reference image and render are RGBA
    images of one size, line 210 adds [1 - alpha] to the values of the
    reference image as they are, lines 216-218 turn the RGB of the rendered
    image into sRGB, add [1 - alpha] there and turn the RGB back to linear
    (alpha goes through neither conversion), and the error of the frame is
    computed from these two images. *)
Theorem compositing_order (data_dir : string) (i : nat) (frame : Frame)
  (ref0 : Image) :
  let rendered := render (Pose.camera_pose (transform_matrix frame))
                         (width ref0) (height ref0) spp in
  let ref_image := mkImage (height ref0) (width ref0)
                           (map spec_white_linear (pixels ref0)) in
  let image := mkImage (height ref0) (width ref0)
                 (map (spec_white_srgb linear_to_srgb srgb_to_linear) rendered) in
  read_image (RefImage.ref_fname isfile data_dir (file_path frame)) = Some ref0 ->
  Forall (fun p => length p = 4%nat) (pixels ref0) ->
  Forall (fun p => length p = 4%nat) rendered ->
  length rendered = length (pixels ref0) ->
  composite_ref ref0 = Some ref_image
  /\ composite_render linear_to_srgb srgb_to_linear
       (mkImage (height ref0) (width ref0) rendered) = Some image
  /\ snd (frame_mse linear_to_srgb srgb_to_linear compute_error_MSE isfile
                    read_image render data_dir i frame)
     = inr (compute_error_MSE (srgb_of_rgb linear_to_srgb image)
                              (srgb_of_rgb linear_to_srgb ref_image)).
Proof.
  intros rendered ref_image image Hread Href Hren Hlen.
  pose proof (composite_ref_rgba ref0 Href) as Hc1.
  pose proof (composite_render_rgba linear_to_srgb srgb_to_linear
                (mkImage (height ref0) (width ref0) rendered) Hren) as Hc2.
  split; [exact Hc1|]. split; [exact Hc2|].
  unfold frame_mse. rewrite Hread, Hc1. cbn [width height].
  fold rendered. rewrite Hc2. cbn [width height pixels].
  destruct (diff_image_rgba image ref_image) as [diffimg Hd].
  - now apply spec_white_srgb_rgba.
  - now apply spec_white_linear_rgba.
  - cbn [pixels image ref_image]. now rewrite !length_map.
  - fold image ref_image. rewrite Hd. reflexivity.
Qed.

End FrameFacts.

Lemma compositing_order_witness :
  Image.composite_ref (Image.mkImage 1 1 [[0; 0; 0; 0]%R])
  = Some (Image.mkImage 1 1 [[0 + (1 - 0); 0 + (1 - 0); 0 + (1 - 0); 0 + (1 - 0)]%R])
  /\ Image.composite_render (fun x => x * 2)%R (fun x => x / 2)%R
       (Image.mkImage 1 1 [[1; 1; 1; 1]%R])
     = Some (Image.mkImage 1 1
               [[(1 * 2 + (1 - 1)) / 2; (1 * 2 + (1 - 1)) / 2;
                 (1 * 2 + (1 - 1)) / 2; 1 + (1 - 1)]%R])
  /\ snd (Evaluation.frame_mse (fun x => x * 2)%R (fun x => x / 2)%R
            (fun _ _ => 0%R) (fun _ => true)
            (fun _ => Some (Image.mkImage 1 1 [[0; 0; 0; 0]%R]))
            (fun _ _ _ _ => [[1; 1; 1; 1]%R])
            "data" 0 (mkFrame "r_0.png" []))
     = inr 0%R.
Proof.
  apply (compositing_order (fun x => x * 2)%R (fun x => x / 2)%R
           (fun _ _ => 0%R) (fun _ => true)
           (fun _ => Some (Image.mkImage 1 1 [[0; 0; 0; 0]%R]))
           (fun _ _ _ _ => [[1; 1; 1; 1]%R])
           "data" 0%nat (mkFrame "r_0.png" [])
           (Image.mkImage 1 1 [[0; 0; 0; 0]%R])).
  - reflexivity.
  - repeat constructor.
  - repeat constructor.
  - reflexivity.
Defined.

(** ** The evaluation run *)
Section EvaluationFacts.

Import Evaluation.
Open Scope R_scope.

Variable mse2psnr : R -> R.

Lemma or1_nonzero (n : Z) : or1 n <> 0%Z.
Proof. unfold or1. destruct (n =? 0)%Z eqn:E; lia. Qed.

Lemma div_count_or1 (x : R) (n : Z) :
  div_count x (or1 n) = Some (x / IZR (or1 n)).
Proof.
  unfold div_count. pose proof (or1_nonzero n).
  destruct (or1 n =? 0)%Z eqn:E; [lia | reflexivity].
Qed.

(** One frame never fails, and what it does to each total. *)
Lemma accumulate_total (acc : Accum) (mse : R) :
  exists acc1 shown,
    accumulate mse2psnr acc mse = Some (acc1, shown)
    /\ totssim acc1 = (totssim acc + 0)%Z
    /\ totcount acc1 = (totcount acc + 1)%Z
    /\ totmse acc1 = totmse acc + mse
    /\ totpsnr acc1 = totpsnr acc + mse2psnr mse
    /\ shown = totpsnr acc1 / IZR (or1 (totcount acc1)).
Proof.
  unfold accumulate. rewrite div_count_or1.
  eexists _, _. split; [reflexivity|]. cbn. repeat split.
Qed.

(** The totals after any number of frames. *)
Lemma accumulate_all_total (mses : list R) :
  forall acc, exists acc1,
    accumulate_all mse2psnr mses acc = Some acc1
    /\ totssim acc1 = totssim acc
    /\ totcount acc1 = (totcount acc + Z.of_nat (length mses))%Z
    /\ totmse acc1 = fold_left Rplus mses (totmse acc)
    /\ totpsnr acc1 = fold_left Rplus (map mse2psnr mses) (totpsnr acc).
Proof.
  induction mses as [|mse rest IH]; intros acc; cbn [accumulate_all].
  - exists acc. cbn. repeat split. lia.
  - destruct (accumulate_total acc mse)
      as (acc1 & shown & -> & Hs & Hc & Hm & Hp & _).
    destruct (IH acc1) as (acc2 & -> & Hs2 & Hc2 & Hm2 & Hp2).
    exists acc2. cbn [map fold_left length].
    rewrite Hs2, Hc2, Hm2, Hp2, Hs, Hc, Hm, Hp.
    repeat split; lia.
Qed.

(** The summary never fails, and what it holds. *)
Lemma summarize_total (acc : Accum) :
  summarize mse2psnr acc
  = Some {| psnr_avgmse := mse2psnr (totmse acc / IZR (or1 (totcount acc)));
            psnr := totpsnr acc / IZR (or1 (totcount acc));
            ssim := IZR (totssim acc) / IZR (or1 (totcount acc));
            printed := [Lit "psnr ";
                        Num (totpsnr acc / IZR (or1 (totcount acc)));
                        Lit " average, psnr range ";
                        Num (minpsnr acc); Lit "-"; Num (maxpsnr acc);
                        Lit ", ssim ";
                        Num (IZR (totssim acc) / IZR (or1 (totcount acc)))] |}.
Proof. unfold summarize. rewrite !div_count_or1. reflexivity. Qed.

Lemma accumulate_eq (acc : Accum) (mse : R) :
  accumulate mse2psnr acc mse
  = Some ({| totmse := totmse acc + mse;
             totpsnr := totpsnr acc + mse2psnr mse;
             totssim := (totssim acc + 0)%Z;
             totcount := (totcount acc + 1)%Z;
             minpsnr := if Rlt_dec (mse2psnr mse) (minpsnr acc)
                        then mse2psnr mse else minpsnr acc;
             maxpsnr := if Rgt_dec (mse2psnr mse) (maxpsnr acc)
                        then mse2psnr mse else maxpsnr acc |},
          (totpsnr acc + mse2psnr mse) / IZR (or1 (totcount acc + 1))).
Proof. unfold accumulate. rewrite div_count_or1. reflexivity. Qed.

(** The rest of common.py and the outside world. *)
Variables linear_to_srgb srgb_to_linear : R -> R.
Variable compute_error_MSE : Image.Image -> Image.Image -> R.
Variable isfile : string -> bool.
Variable read_image : string -> option Image.Image.
Variable render : Pose.Matrix -> nat -> nat -> Z -> list Image.Pixel.

Local Abbreviation frame_mse' :=
  (frame_mse linear_to_srgb srgb_to_linear compute_error_MSE isfile
             read_image render).
Local Abbreviation eval_loop' :=
  (eval_loop mse2psnr linear_to_srgb srgb_to_linear compute_error_MSE isfile
             read_image render).
Local Abbreviation evaluate' :=
  (evaluate mse2psnr linear_to_srgb srgb_to_linear compute_error_MSE isfile
            read_image render).

Lemma frame_mse_no_zero_division (data_dir : string) (i : nat) (frame : Frame) :
  snd (frame_mse' data_dir i frame) <> inl ZeroDivisionError.
Proof.
  unfold frame_mse.
  repeat match goal with
         | |- context [match ?x with Some _ => _ | None => _ end] => destruct x
         end; cbn; discriminate.
Qed.

Lemma eval_loop_no_zero_division (data_dir : string) (frames : list Frame) :
  forall i acc,
    snd (eval_loop' data_dir i frames acc) <> inl ZeroDivisionError.
Proof.
  induction frames as [|frame rest IH]; intros i acc; cbn [eval_loop].
  - discriminate.
  - pose proof (frame_mse_no_zero_division data_dir i frame) as Hf.
    destruct (frame_mse' data_dir i frame) as [ev [e|mse]]; cbn [snd] in *.
    + intros [= ->]. now apply Hf.
    + rewrite accumulate_eq.
      match goal with |- context [eval_loop' _ ?j _ ?acc1] =>
        specialize (IH j acc1);
        destruct (eval_loop' data_dir j rest acc1) as [ev' r]
      end.
      exact IH.
Qed.

(** A loop that ends well has added up the errors of its frames, one
    after the other. *)
Lemma eval_loop_accumulates (data_dir : string) (frames : list Frame) :
  forall i acc ev acc1,
    eval_loop' data_dir i frames acc = (ev, inr acc1) ->
    exists mses, length mses = length frames
                 /\ accumulate_all mse2psnr mses acc = Some acc1.
Proof.
  induction frames as [|frame rest IH]; intros i acc ev acc1; cbn [eval_loop].
  - intros [= _ <-]. exists []. split; reflexivity.
  - destruct (frame_mse' data_dir i frame) as [ev0 [e|mse]]; [discriminate|].
    rewrite accumulate_eq.
    match goal with |- context [eval_loop' _ ?j _ ?acc2] =>
      specialize (IH j acc2);
      destruct (eval_loop' data_dir j rest acc2) as [ev' r]
    end.
    intros [= _ ->].
    destruct (IH ev' acc1 eq_refl) as (mses & Hlen & Hacc).
    exists (mse :: mses). split; [cbn; now rewrite Hlen|].
    cbn [accumulate_all]. rewrite accumulate_eq. exact Hacc.
Qed.

(** A run that ends well prints, as its last act, the line of the summary
    of the errors of its frames. *)
Lemma evaluate_summary_of (data_dir : string) (test_transforms : Transforms)
  (ev : list Event) (s : Summary) :
  evaluate' data_dir test_transforms = (ev, inr s) ->
  exists frames mses ev',
    test_transforms !! "frames"%string = Some (JFrames frames)
    /\ length mses = length frames
    /\ summary_of mse2psnr mses = Some s
    /\ ev = ev' ++ [EvPrint (printed s)].
Proof.
  unfold evaluate.
  destruct (test_transforms !! "camera_angle_x"%string) as [angle|];
    [|discriminate].
  destruct (fov_degrees angle) as [fov|]; [|discriminate].
  destruct (test_transforms !! "frames"%string) as [[z|x|frames]|];
    try discriminate.
  destruct (eval_loop' data_dir 0%nat frames acc0) as [ev1 [e|acc]] eqn:El;
    [discriminate|].
  rewrite summarize_total. intros [= <- <-].
  destruct (eval_loop_accumulates _ _ _ _ _ _ El) as (mses & Hlen & Hacc).
  exists frames, mses, ([EvSetFov 0 fov] ++ ev1).
  split; [reflexivity|]. split; [exact Hlen|]. split.
  - unfold summary_of. rewrite Hacc. apply summarize_total.
  - cbn [printed]. now rewrite <- app_assoc.
Qed.

(** C3, amended.  After the frames the code computes both the mean of the
    per-frame PSNR values and the PSNR of the mean MSE; the line it prints
    holds the first one only, with the least and greatest PSNR and the mean
    SSIM, and that line is all a run reports of its summary. *)
Theorem summary_prints_mean_psnr_only :
  (forall mses, exists acc s,
      accumulate_all mse2psnr mses acc0 = Some acc
      /\ summary_of mse2psnr mses = Some s
      /\ psnr s = fold_left Rplus (map mse2psnr mses) 0
                  / IZR (or1 (Z.of_nat (length mses)))
      /\ psnr_avgmse s = mse2psnr (fold_left Rplus mses 0
                                   / IZR (or1 (Z.of_nat (length mses))))
      /\ printed s = [Lit "psnr "; Num (psnr s); Lit " average, psnr range ";
                      Num (minpsnr acc); Lit "-"; Num (maxpsnr acc);
                      Lit ", ssim "; Num (ssim s)])
  /\ (forall data_dir test_transforms ev s,
        evaluate' data_dir test_transforms = (ev, inr s) ->
        exists frames mses ev',
          test_transforms !! "frames"%string = Some (JFrames frames)
          /\ length mses = length frames
          /\ summary_of mse2psnr mses = Some s
          /\ ev = ev' ++ [EvPrint (printed s)]).
Proof.
  split.
  - intros mses.
    destruct (accumulate_all_total mses acc0) as (acc & Hacc & _ & Hc & Hm & Hp).
    exists acc. eexists. unfold summary_of. rewrite Hacc, summarize_total.
    split; [reflexivity|]. split; [reflexivity|].
    cbn [psnr psnr_avgmse printed ssim].
    rewrite Hc, Hm, Hp. cbn [acc0 totcount totmse totpsnr Z.add].
    repeat split.
  - intros data_dir tt ev s. apply evaluate_summary_of.
Qed.

Lemma summary_of_ssim (mses : list R) (s : Summary) :
  summary_of mse2psnr mses = Some s ->
  ssim s = 0
  /\ exists front, printed s = front ++ [Lit ", ssim "; Num 0].
Proof.
  unfold summary_of.
  destruct (accumulate_all_total mses acc0) as (acc & -> & Hs & _).
  cbn [acc0 totssim] in Hs. rewrite summarize_total, Hs.
  assert (E : 0 / IZR (or1 (totcount acc)) = 0)
    by (unfold Rdiv; apply Rmult_0_l).
  rewrite E. intros [= <-]. cbn [ssim printed]. split; [reflexivity|].
  eexists.
  change [?a; ?b; ?c; ?d; ?e; ?f; ?g; ?h] with ([a; b; c; d; e; f] ++ [g; h]).
  reflexivity.
Qed.

(** C8.  Each frame adds the constant 0 to [totssim], so the total is 0
    after any number of frames and the mean SSIM, which the summary line
    of a run ends with, is 0. *)
Theorem ssim_is_stubbed_zero :
  (forall acc mse, exists acc1 shown,
      accumulate mse2psnr acc mse = Some (acc1, shown)
      /\ totssim acc1 = (totssim acc + 0)%Z)
  /\ (forall mses, exists acc s,
        accumulate_all mse2psnr mses acc0 = Some acc
        /\ totssim acc = 0%Z
        /\ summary_of mse2psnr mses = Some s
        /\ ssim s = 0)
  /\ (forall data_dir test_transforms ev s,
        evaluate' data_dir test_transforms = (ev, inr s) ->
        ssim s = 0
        /\ exists ev' front,
             ev = ev' ++ [EvPrint (front ++ [Lit ", ssim "; Num 0])]).
Proof.
  split; [|split].
  - intros acc mse.
    destruct (accumulate_total acc mse) as (acc1 & shown & H & Hs & _).
    eauto.
  - intros mses.
    destruct (accumulate_all_total mses acc0) as (acc & Hacc & Hs & _).
    cbn [acc0 totssim] in Hs.
    destruct (summarize mse2psnr acc) as [s|] eqn:Es;
      [|rewrite summarize_total in Es; discriminate].
    assert (Hsum : summary_of mse2psnr mses = Some s)
      by (unfold summary_of; now rewrite Hacc).
    exists acc, s. repeat split; auto.
    now apply (summary_of_ssim mses).
  - intros data_dir tt ev s Hrun.
    destruct (evaluate_summary_of _ _ _ _ Hrun)
      as (frames & mses & ev' & _ & _ & Hsum & ->).
    destruct (summary_of_ssim mses s Hsum) as (Hz & front & Hp).
    split; [exact Hz|]. exists ev', front. now rewrite Hp.
Qed.

(** C10.  The divisor [totcount or 1] is never 0, so neither the running
    mean shown after a frame nor any of the three divisions of the summary
    can fail, the run over no frame at all included; the evaluation never
    ends in a division by zero. *)
Theorem summary_never_divides_by_zero :
  (forall n, or1 n <> 0%Z)
  /\ (forall acc mse, accumulate mse2psnr acc mse <> None)
  /\ (forall acc, summarize mse2psnr acc <> None)
  /\ summary_of mse2psnr []
     = Some {| psnr_avgmse := mse2psnr (0 / 1); psnr := 0 / 1; ssim := 0 / 1;
               printed := [Lit "psnr "; Num (0 / 1);
                           Lit " average, psnr range ";
                           Num 1000; Lit "-"; Num 0;
                           Lit ", ssim "; Num (0 / 1)] |}
  /\ (forall data_dir test_transforms,
        snd (evaluate' data_dir test_transforms) <> inl ZeroDivisionError).
Proof.
  split; [exact or1_nonzero|].
  split; [intros acc mse; rewrite accumulate_eq; discriminate|].
  split; [intros acc; rewrite summarize_total; discriminate|].
  split.
  - unfold summary_of. cbn [accumulate_all]. rewrite summarize_total.
    reflexivity.
  - intros data_dir tt.
    unfold evaluate.
    destruct (tt !! "camera_angle_x"%string) as [angle|]; [|discriminate].
    destruct (fov_degrees angle) as [fov|]; [|discriminate].
    destruct (tt !! "frames"%string) as [[z|x|frames]|]; try discriminate.
    pose proof (eval_loop_no_zero_division data_dir frames 0%nat acc0) as Hl.
    destruct (eval_loop' data_dir 0%nat frames acc0) as [ev [e|acc]];
      cbn [snd] in *.
    + intros [= ->]. now apply Hl.
    + rewrite summarize_total. discriminate.
Qed.

End EvaluationFacts.

(** The run over a manifest without frames: nothing is rendered, the
    summary is printed. *)
Example evaluate_no_frames (mse2psnr : R -> R) :
  Evaluation.evaluate mse2psnr (fun x => x) (fun x => x)
    (fun _ _ => 0%R) (fun _ => false) (fun _ => None) (fun _ _ _ _ => [])
    "data" Evaluation.no_frames
  = ([Evaluation.EvSetFov 0 (1 * 180 / PI);
      Evaluation.EvPrint
        [Evaluation.Lit "psnr "; Evaluation.Num (0 / 1);
         Evaluation.Lit " average, psnr range ";
         Evaluation.Num 1000; Evaluation.Lit "-"; Evaluation.Num 0;
         Evaluation.Lit ", ssim "; Evaluation.Num (0 / 1)]],
     inr (Evaluation.mkSummary (mse2psnr (0 / 1)) (0 / 1) (0 / 1)
            [Evaluation.Lit "psnr "; Evaluation.Num (0 / 1);
             Evaluation.Lit " average, psnr range ";
             Evaluation.Num 1000; Evaluation.Lit "-"; Evaluation.Num 0;
             Evaluation.Lit ", ssim "; Evaluation.Num (0 / 1)]))%R.
Proof. reflexivity. Qed.

Lemma summary_prints_mean_psnr_only_witness :
  exists ev s,
    Evaluation.evaluate (fun _ => 30%R) (fun x => x) (fun x => x)
      (fun _ _ => (1 / 1000)%R) (fun _ => true)
      (fun _ => Some (Image.mkImage 1 1 [[0; 0; 0; 0]%R]))
      (fun _ _ _ _ => [[1; 1; 1; 1]%R]) "data" Evaluation.one_frame
    = (ev, inr s)
    /\ exists ev', ev = ev' ++ [Evaluation.EvPrint (Evaluation.printed s)].
Proof.
  eexists _, _. split; [reflexivity|].
  destruct (proj2 (summary_prints_mean_psnr_only (fun _ => 30%R)
                     (fun x => x) (fun x => x)
                     (fun _ _ => (1 / 1000)%R) (fun _ => true)
                     (fun _ => Some (Image.mkImage 1 1 [[0; 0; 0; 0]%R]))
                     (fun _ _ _ _ => [[1; 1; 1; 1]%R]))
                  "data" Evaluation.one_frame _ _ eq_refl)
    as (frames & mses & ev' & _ & _ & _ & H).
  exists ev'. exact H.
Defined.

Lemma ssim_is_stubbed_zero_witness :
  exists ev s,
    Evaluation.evaluate (fun _ => 30%R) (fun x => x) (fun x => x)
      (fun _ _ => (1 / 1000)%R) (fun _ => true)
      (fun _ => Some (Image.mkImage 1 1 [[0; 0; 0; 0]%R]))
      (fun _ _ _ _ => [[1; 1; 1; 1]%R]) "data" Evaluation.one_frame
    = (ev, inr s)
    /\ Evaluation.ssim s = 0%R.
Proof.
  eexists _, _. split; [reflexivity|].
  apply (proj2 (proj2 (ssim_is_stubbed_zero (fun _ => 30%R)
                         (fun x => x) (fun x => x)
                         (fun _ _ => (1 / 1000)%R) (fun _ => true)
                         (fun _ => Some (Image.mkImage 1 1 [[0; 0; 0; 0]%R]))
                         (fun _ _ _ _ => [[1; 1; 1; 1]%R])))
               "data" Evaluation.one_frame _ _ eq_refl).
Defined.

(** ** Two runs that print the same line *)
Section LogPsnrFacts.

Import Evaluation.
Open Scope R_scope.

Lemma ln_10_pos : 0 < ln 10.
Proof. rewrite <- ln_1. apply ln_increasing; lra. Qed.

Lemma mse2psnr_log10_inv_pow (n : nat) :
  mse2psnr_log10 (/ 10 ^ n) = 10 * INR n.
Proof.
  unfold mse2psnr_log10.
  rewrite ln_Rinv by (apply pow_lt; lra).
  rewrite ln_pow by lra.
  pose proof ln_10_pos. field. lra.
Qed.

Lemma mse2psnr_log10_tenth : mse2psnr_log10 (1 / 10) = 10.
Proof.
  replace (1 / 10) with (/ 10 ^ 1) by (simpl; field).
  rewrite mse2psnr_log10_inv_pow. simpl. lra.
Qed.

Lemma mse2psnr_log10_hundredth : mse2psnr_log10 (1 / 100) = 20.
Proof.
  replace (1 / 100) with (/ 10 ^ 2) by (simpl; field).
  rewrite mse2psnr_log10_inv_pow. simpl. lra.
Qed.

Lemma mse2psnr_log10_thousandth : mse2psnr_log10 (1 / 1000) = 30.
Proof.
  replace (1 / 1000) with (/ 10 ^ 3) by (simpl; field).
  rewrite mse2psnr_log10_inv_pow. simpl. lra.
Qed.

Lemma mse2psnr_log10_inj (x y : R) :
  0 < x -> 0 < y -> mse2psnr_log10 x = mse2psnr_log10 y -> x = y.
Proof.
  unfold mse2psnr_log10. intros Hx Hy H. pose proof ln_10_pos as Hl.
  apply ln_inv; try assumption.
  apply (Rmult_eq_compat_r (ln 10)) in H.
  unfold Rdiv in H. rewrite !Rmult_assoc, Rinv_l, !Rmult_1_r in H by lra.
  lra.
Qed.

Ltac frame_step :=
  rewrite accumulate_eq;
  cbn [totmse totpsnr totssim totcount minpsnr maxpsnr acc0];
  rewrite ?mse2psnr_log10_tenth, ?mse2psnr_log10_hundredth,
          ?mse2psnr_log10_thousandth;
  repeat match goal with
         | |- context [Rlt_dec ?a ?b] =>
             destruct (Rlt_dec a b); [| solve [exfalso; lra]]
         | |- context [Rlt_dec ?a ?b] =>
             destruct (Rlt_dec a b); [solve [exfalso; lra] |]
         | |- context [Rgt_dec ?a ?b] =>
             destruct (Rgt_dec a b); [| solve [exfalso; lra]]
         | |- context [Rgt_dec ?a ?b] =>
             destruct (Rgt_dec a b); [solve [exfalso; lra] |]
         end.

(** Four frames of errors 0.1, 0.01, 0.01 and 0.001. *)
Lemma totals_run_a :
  accumulate_all mse2psnr_log10 [1 / 10; 1 / 100; 1 / 100; 1 / 1000] acc0
  = Some {| totmse := 0 + 1 / 10 + 1 / 100 + 1 / 100 + 1 / 1000;
            totpsnr := 0 + 10 + 20 + 20 + 30;
            totssim := 0; totcount := 4;
            minpsnr := 10; maxpsnr := 30 |}.
Proof.
  cbn [accumulate_all]. do 4 frame_step. reflexivity.
Qed.

(** Four frames of errors 0.1, 0.1, 0.001 and 0.001. *)
Lemma totals_run_b :
  accumulate_all mse2psnr_log10 [1 / 10; 1 / 10; 1 / 1000; 1 / 1000] acc0
  = Some {| totmse := 0 + 1 / 10 + 1 / 10 + 1 / 1000 + 1 / 1000;
            totpsnr := 0 + 10 + 10 + 30 + 30;
            totssim := 0; totcount := 4;
            minpsnr := 10; maxpsnr := 30 |}.
Proof.
  cbn [accumulate_all]. do 4 frame_step. reflexivity.
Qed.

(** C3, as stated, fails: the printed summary does not tell the PSNR of the
    mean MSE.  These two runs print the same line (mean 20, range 10-30,
    ssim 0) and differ in the PSNR of their mean MSE. *)
Lemma printed_summary_omits_psnr_of_mean_mse :
  exists s1 s2,
    summary_of mse2psnr_log10 [1 / 10; 1 / 100; 1 / 100; 1 / 1000] = Some s1
    /\ summary_of mse2psnr_log10 [1 / 10; 1 / 10; 1 / 1000; 1 / 1000] = Some s2
    /\ printed s1 = printed s2
    /\ psnr_avgmse s1 <> psnr_avgmse s2.
Proof.
  unfold summary_of. rewrite totals_run_a, totals_run_b, !summarize_total.
  eexists _, _. split; [reflexivity|]. split; [reflexivity|].
  cbn [printed psnr_avgmse totmse totpsnr totssim totcount minpsnr maxpsnr].
  change (or1 4) with 4%Z.
  split.
  - replace ((0 + 10 + 20 + 20 + 30) / 4) with ((0 + 10 + 10 + 30 + 30) / 4)
      by lra.
    reflexivity.
  - intros H. apply mse2psnr_log10_inj in H; lra.
Qed.

End LogPsnrFacts.

(** * Further properties *)

(** ** The training loop: the progress bar and the training flag *)
Section TrainingInvariants.

Import Training.

(** What a turn that goes on does to the state. *)
Lemma loop_body_continue_state (a : Args) (limit : Z) (o : FrameObs)
  (s s1 : LoopState) (ev : list Event) :
  loop_body a limit o s = (Continue, s1, ev) ->
  old_training_step s1 = training_step o
  /\ (bar_n s = old_training_step s -> bar_n s1 = training_step o)
  /\ (gui a = false -> training_step o < limit /\ shall_train s1 = shall_train s)
  /\ (shall_train s = false -> shall_train s1 = false).
Proof.
  unfold loop_body. intros H.
  destruct (limit <=? training_step o) eqn:El;
    destruct (gui a) eqn:Eg; cbn [andb negb] in H; try discriminate;
    injection H as <- <-; cbn [old_training_step bar_n shall_train];
    (repeat split; try discriminate; try lia; try reflexivity; auto);
    intros Hb;
    destruct ((training_step o <? old_training_step s)
              || (old_training_step s =? 0)); lia.
Qed.

Lemma loop_body_break_state (a : Args) (limit : Z) (o : FrameObs)
  (s s1 : LoopState) (ev : list Event) :
  loop_body a limit o s = (Break, s1, ev) -> s1 = s.
Proof.
  unfold loop_body. destruct (_ && negb (gui a)); [|discriminate].
  now intros [= <- _].
Qed.

(** A property of the state that every turn keeps is kept by the loop. *)
Lemma while_frame_invariant (a : Args) (limit : Z) (P : LoopState -> Prop) :
  (forall o s s1 ev, P s -> loop_body a limit o s = (Continue, s1, ev) -> P s1) ->
  forall obs s, P s -> P (snd (fst (while_frame a limit obs s))).
Proof.
  intros Hstep. induction obs as [|o rest IH]; intros s Hs; cbn [while_frame].
  - exact Hs.
  - destruct (frame_ok o); [|exact Hs].
    destruct (loop_body a limit o s) as [[c s1] ev] eqn:Hb. destruct c.
    + specialize (IH s1 (Hstep _ _ _ _ Hs Hb)).
      destruct (while_frame a limit rest s1) as [[out s2] ev2]. exact IH.
    + apply loop_body_break_state in Hb. now subst.
Qed.

(** X1.  When the loop is left, however it is left, the counter of the
    progress bar is the step count the loop saw last. *)
Theorem bar_shows_last_step (a : Args) (obs : list FrameObs) :
  bar_n (snd (fst (train_loop a obs)))
  = old_training_step (snd (fst (train_loop a obs))).
Proof.
  unfold train_loop. destruct (0 <? step_limit a); [|reflexivity].
  apply (while_frame_invariant a (step_limit a)
           (fun s => bar_n s = old_training_step s)); [|reflexivity].
  intros o s s1 ev Hs Hb.
  apply loop_body_continue_state in Hb as (Hold & Hbar & _).
  rewrite Hold. now apply Hbar.
Qed.

(** X2.  Without a window the progress bar never reaches its total: the
    loop is left before the turn that would show the limit, so the counter
    stays below it, and training is never switched off. *)
Theorem batch_bar_stays_below_limit (a : Args) (obs : list FrameObs) :
  gui a = false -> 0 < step_limit a ->
  bar_n (snd (fst (train_loop a obs))) < step_limit a
  /\ shall_train (snd (fst (train_loop a obs))) = true.
Proof.
  intros Hg Hpos. unfold train_loop.
  replace (0 <? step_limit a) with true by lia.
  assert (Hinv : (fun s => (bar_n s = old_training_step s
                            /\ old_training_step s < step_limit a)
                           /\ shall_train s = true)
                   (snd (fst (while_frame a (step_limit a) obs (init_state a))))).
  { apply while_frame_invariant.
    - intros o s s1 ev [[Hb Ho] Hf] Hbody.
      apply loop_body_continue_state in Hbody as (Hold & Hbar & Hbatch & _).
      destruct (Hbatch Hg) as [Hlt Hflag].
      repeat split; [rewrite Hold; now apply Hbar | lia | congruence].
    - unfold init_state. rewrite Hg. cbn. repeat split. exact Hpos. }
  cbv beta in Hinv. destruct Hinv as [[Hb Ho] Hf]. split; [lia | exact Hf].
Qed.

Lemma batch_bar_stays_below_limit_witness :
  bar_n (snd (fst (train_loop (mkArgs "" None "" 0 0 16 false false 8)
                              (steps_obs [5; 7; 8; 9]))))
  < 8.
Proof.
  apply (batch_bar_stays_below_limit
           (mkArgs "" None "" 0 0 16 false false 8) (steps_obs [5; 7; 8; 9])).
  - reflexivity.
  - cbn. lia.
Defined.

(** X3.  With a window, once a turn has seen the limit reached the
    training flag is off when the loop is left, whatever the Renderer
    reports afterwards: the script never switches training on again. *)
Theorem gui_training_stays_off (a : Args) (limit : Z) (o : FrameObs)
  (rest : list FrameObs) (s : LoopState) :
  gui a = true -> frame_ok o = true -> limit <= training_step o ->
  shall_train (snd (fst (while_frame a limit (o :: rest) s))) = false.
Proof.
  intros Hg Hf Hl. cbn [while_frame]. rewrite Hf.
  destruct (loop_body_limit_gui a limit o s Hg Hl) as (s1 & ev & Hb & Hflag).
  rewrite Hb.
  assert (Hinv : shall_train (snd (fst (while_frame a limit rest s1))) = false).
  { apply (while_frame_invariant a limit (fun s => shall_train s = false));
      [|exact Hflag].
    intros o' s' s1' ev' Hs' Hb'.
    apply loop_body_continue_state in Hb' as (_ & _ & _ & H). now apply H. }
  destruct (while_frame a limit rest s1) as [[out s2] ev2]. exact Hinv.
Qed.

Lemma gui_training_stays_off_witness :
  shall_train (snd (fst (while_frame (mkArgs "" None "" 0 0 16 true true 3) 3
                                     (steps_obs [3; 1; 2]) (mkLoop 2 true 2))))
  = false.
Proof.
  apply (gui_training_stays_off (mkArgs "" None "" 0 0 16 true true 3) 3
           (mkObs true false 3 0%R) (steps_obs [1; 2]) (mkLoop 2 true 2)).
  - reflexivity.
  - reflexivity.
  - cbn. lia.
Defined.

End TrainingInvariants.

(** ** The window of the GUI *)
Section WindowFacts.

Import Setup.

Lemma half_product (x y : Z) :
  0 < x * y -> 0 <= half x * half y /\ half x * half y * 4 <= x * y.
Proof.
  unfold half. intros H.
  destruct (proj1 (Z.lt_0_mul x y) H) as [[Hx Hy]|[Hy Hx]].
  - rewrite !Z.quot_div_nonneg by lia.
    pose proof (Z.mul_div_le x 2 ltac:(lia)).
    pose proof (Z.mul_div_le y 2 ltac:(lia)).
    pose proof (Z.div_pos x 2 ltac:(lia) ltac:(lia)).
    pose proof (Z.div_pos y 2 ltac:(lia) ltac:(lia)).
    nia.
  - assert (Ex : x ÷ 2 = - (- x / 2)).
    { rewrite <- (Z.opp_involutive x) at 1.
      rewrite Z.quot_opp_l, Z.quot_div_nonneg by lia. reflexivity. }
    assert (Ey : y ÷ 2 = - (- y / 2)).
    { rewrite <- (Z.opp_involutive y) at 1.
      rewrite Z.quot_opp_l, Z.quot_div_nonneg by lia. reflexivity. }
    rewrite Ex, Ey.
    pose proof (Z.mul_div_le (- x) 2 ltac:(lia)).
    pose proof (Z.mul_div_le (- y) 2 ltac:(lia)).
    pose proof (Z.div_pos (- x) 2 ltac:(lia) ltac:(lia)).
    pose proof (Z.div_pos (- y) 2 ltac:(lia) ltac:(lia)).
    nia.
Qed.

(** With enough fuel the loop ends by its own test: after some number [k]
    of halvings of both sides, the least for which the area fits. *)
Lemma shrink_spec (fuel : nat) :
  forall sw sh,
    sw * sh <= 1920 * 1080 * 4 * 4 ^ Z.of_nat fuel ->
    exists k,
      shrink fuel sw sh = (Nat.iter k half sw, Nat.iter k half sh)
      /\ Nat.iter k half sw * Nat.iter k half sh <= 1920 * 1080 * 4
      /\ forall j, (j < k)%nat ->
           1920 * 1080 * 4 < Nat.iter j half sw * Nat.iter j half sh.
Proof.
  induction fuel as [|fuel IH]; intros sw sh Hfuel; cbn [shrink].
  - exists 0%nat. simpl Nat.iter.
    change (4 ^ Z.of_nat 0) with 1 in Hfuel.
    replace (sw * sh >? 1920 * 1080 * 4) with false
      by (symmetry; rewrite Z.gtb_ltb; apply Z.ltb_ge; lia).
    repeat split; [lia | intros j Hj; lia].
  - destruct (sw * sh >? 1920 * 1080 * 4) eqn:E;
      rewrite Z.gtb_ltb in E;
      [apply Z.ltb_lt in E | apply Z.ltb_ge in E].
    + destruct (half_product sw sh ltac:(lia)) as [_ Hq].
      destruct (IH (half sw) (half sh)) as (k & Hk & Hfit & Hmin).
      { rewrite Nat2Z.inj_succ, Z.pow_succ_r in Hfuel by lia. lia. }
      exists (S k). rewrite !Nat.iter_succ_r. repeat split; auto.
      intros [|j] Hj; [simpl Nat.iter; lia|].
      rewrite !Nat.iter_succ_r. apply Hmin. lia.
    + exists 0%nat. simpl Nat.iter. repeat split; [lia | intros j Hj; lia].
Qed.

Lemma log2_fuel (p : Z) :
  p <= 1920 * 1080 * 4 * 4 ^ Z.of_nat (Z.to_nat (Z.log2 p)).
Proof.
  destruct (Z.le_gt_cases p 0) as [Hp|Hp].
  - pose proof (Z.pow_pos_nonneg 4 (Z.of_nat (Z.to_nat (Z.log2 p)))
                  ltac:(lia) ltac:(lia)). lia.
  - pose proof (Z.log2_nonneg p) as Hl. rewrite Z2Nat.id by lia.
    destruct (Z.log2_spec p Hp) as [_ Hup].
    rewrite Z.pow_succ_r in Hup by lia.
    assert (2 ^ Z.log2 p <= 4 ^ Z.log2 p)
      by (apply Z.pow_le_mono_l; lia).
    lia.
Qed.



(** The default window, and two sizes that are too large; a very narrow
    one ends with no width at all. *)
Example window_default :
  window_size (mkArgs "" None "" 0 0 16 true false (-1)) = (1920, 1080).
Proof. reflexivity. Qed.

Example window_8k :
  window_size (mkArgs "" None "" 7680 4320 16 true false (-1)) = (3840, 2160).
Proof. reflexivity. Qed.

Example window_narrow :
  window_size (mkArgs "" None "" 1 100000000 16 true false (-1)) = (0, 50000000).
Proof. reflexivity. Qed.

End WindowFacts.

(** ** The reference image: which file is read *)
Section RefImageMore.

Import RefImage.

(** X5.  The file read for a frame is the first of the four probed names
    that is on disk and, when none is, the fifth name, unprobed; so when the
    chosen file is missing, none of the five names is on disk. *)
Theorem ref_fname_first_on_disk (isfile : string -> bool)
  (data_dir file_path : string) :
  ref_fname isfile data_dir file_path
  = match List.find isfile (firstn 4 (candidates data_dir file_path)) with
    | Some f => f
    | None => List.last (candidates data_dir file_path) ""%string
    end
  /\ (isfile (ref_fname isfile data_dir file_path) = false ->
      Forall (fun f => isfile f = false) (candidates data_dir file_path)).
Proof.
  unfold ref_fname, candidates. cbn [map firstn List.find List.last].
  repeat match goal with
         | |- context [if isfile ?f then _ else _] =>
             let E := fresh "E" in destruct (isfile f) eqn:E
         end;
    (split; [reflexivity|]); intros H; try congruence;
    repeat constructor; assumption.
Qed.

Lemma ref_fname_first_on_disk_witness :
  Forall (fun f => Path.isfile_on {[ "data/frame_01.jpg"%string ]} f = false)
         (candidates "data" "frame_01").
Proof.
  apply (ref_fname_first_on_disk
           (Path.isfile_on {[ "data/frame_01.jpg"%string ]}) "data" "frame_01").
  vm_compute. reflexivity.
Defined.

End RefImageMore.

(** ** The evaluation run: what reaches the Renderer and the disk *)
Section EvaluationTrace.

Import Evaluation EvalTrace.
Open Scope R_scope.

Variable mse2psnr : R -> R.
Variables linear_to_srgb srgb_to_linear : R -> R.
Variable compute_error_MSE : Image.Image -> Image.Image -> R.
Variable isfile : string -> bool.
Variable read_image : string -> option Image.Image.
Variable render : Pose.Matrix -> nat -> nat -> Z -> list Image.Pixel.

Local Abbreviation frame_mse' :=
  (frame_mse linear_to_srgb srgb_to_linear compute_error_MSE isfile
             read_image render).
Local Abbreviation eval_loop' :=
  (eval_loop mse2psnr linear_to_srgb srgb_to_linear compute_error_MSE isfile
             read_image render).
Local Abbreviation evaluate' :=
  (evaluate mse2psnr linear_to_srgb srgb_to_linear compute_error_MSE isfile
            read_image render).

(** One frame: nothing is printed; when the frame goes through, the
    Renderer got one pose and one call of [render] at 8 samples. *)
Lemma frame_mse_trace (data_dir : string) (i : nat) (frame : Frame) :
  prints (fst (frame_mse' data_dir i frame)) = []
  /\ forall mse, snd (frame_mse' data_dir i frame) = inr mse ->
       cameras (fst (frame_mse' data_dir i frame))
       = [Pose.camera_pose (transform_matrix frame)]
       /\ renders (fst (frame_mse' data_dir i frame)) = [8%Z]
       /\ writes (fst (frame_mse' data_dir i frame)) = debug_images i.
Proof.
  unfold frame_mse, debug_images.
  repeat match goal with
         | |- context [match ?x with Some _ => _ | None => _ end] => destruct x
         end;
    destruct (Nat.eqb i 0); cbn; (split; [reflexivity|]);
    intros mse H; try discriminate; repeat split.
Qed.

Lemma eval_loop_trace (data_dir : string) (frames : list Frame) :
  forall i acc,
    prints (fst (eval_loop' data_dir i frames acc)) = []
    /\ forall acc1, snd (eval_loop' data_dir i frames acc) = inr acc1 ->
         cameras (fst (eval_loop' data_dir i frames acc))
         = map (fun f => Pose.camera_pose (transform_matrix f)) frames
         /\ renders (fst (eval_loop' data_dir i frames acc))
            = map (fun _ => 8%Z) frames
         /\ writes (fst (eval_loop' data_dir i frames acc))
            = match frames with [] => [] | _ :: _ => debug_images i end.
Proof.
  induction frames as [|frame rest IH]; intros i acc; cbn [eval_loop].
  - split; [reflexivity|]. intros acc1 _. repeat split.
  - destruct (frame_mse_trace data_dir i frame) as [Hp Hok].
    destruct (frame_mse' data_dir i frame) as [ev [e|mse]]; cbn [fst snd] in *.
    + split; [exact Hp|]. discriminate.
    + destruct (Hok mse eq_refl) as (Hc & Hr & Hw).
      rewrite accumulate_eq.
      match goal with |- context [eval_loop' _ ?j _ ?acc2] =>
        destruct (IH j acc2) as [IHp IHok];
        destruct (eval_loop' data_dir j rest acc2) as [ev' r]
      end.
      cbn [fst snd] in *.
      change (ev ++ EvPostfix ?x :: ev') with (ev ++ [EvPostfix x] ++ ev').
      unfold prints, cameras, renders, writes in *.
      rewrite !flat_map_app, Hp, IHp, Hc, Hr, Hw. cbn [flat_map app].
      split; [reflexivity|].
      intros acc1 ->. destruct (IHok acc1 eq_refl) as (IHc & IHr & IHw).
      rewrite IHc, IHr, IHw. repeat split.
      destruct rest; [apply app_nil_r|]. unfold debug_images. cbn.
      apply app_nil_r.
Qed.

(** What [evaluate] adds around the loop. *)
Lemma evaluate_cases (data_dir : string) (test_transforms : Transforms) :
  (exists e, evaluate' data_dir test_transforms = ([], inl e))
  \/ (exists fov e, evaluate' data_dir test_transforms
                    = ([EvSetFov 0 fov], inl e))
  \/ (exists fov frames,
        test_transforms !! "frames"%string = Some (JFrames frames)
        /\ match eval_loop' data_dir 0 frames acc0 with
           | (ev, inl e) =>
               evaluate' data_dir test_transforms
               = ([EvSetFov 0 fov] ++ ev, inl e)
           | (ev, inr acc) =>
               exists s, summarize mse2psnr acc = Some s
                 /\ evaluate' data_dir test_transforms
                    = ([EvSetFov 0 fov] ++ ev ++ [EvPrint (printed s)], inr s)
           end).
Proof.
  unfold evaluate.
  destruct (test_transforms !! "camera_angle_x"%string) as [angle|]; [|eauto].
  destruct (fov_degrees angle) as [fov|]; [|eauto].
  destruct (test_transforms !! "frames"%string) as [[z|x|frames]|]; eauto.
  right. right. exists fov, frames. split; [reflexivity|].
  destruct (eval_loop' data_dir 0 frames acc0) as [ev [e|acc]]; [reflexivity|].
  rewrite summarize_total. eauto.
Qed.


(** X7.  In a run that ends well the Renderer is given one pose per frame
    of the manifest, in the order of the manifest, each the frame's matrix
    without its last row, and renders once per frame at 8 samples. *)
Theorem one_render_per_frame (data_dir : string) (test_transforms : Transforms)
  (ev : list Event) (s : Summary) (frames : list Frame) :
  evaluate' data_dir test_transforms = (ev, inr s) ->
  test_transforms !! "frames"%string = Some (JFrames frames) ->
  cameras ev = map (fun f => Pose.camera_pose (transform_matrix f)) frames
  /\ renders ev = map (fun _ => 8%Z) frames.
Proof.
  intros Hrun Hframes.
  destruct (evaluate_cases data_dir test_transforms)
    as [[e H]|[(fov & e & H)|(fov & frames' & Hf & H)]];
    try (rewrite H in Hrun; discriminate).
  rewrite Hframes in Hf. injection Hf as <-.
  destruct (eval_loop_trace data_dir frames 0%nat acc0) as [_ Hok].
  destruct (eval_loop' data_dir 0 frames acc0) as [ev0 [e|acc]];
    cbn [fst snd] in *.
  - rewrite H in Hrun. discriminate.
  - destruct H as (s' & _ & H). rewrite H in Hrun. injection Hrun as <- <-.
    destruct (Hok acc eq_refl) as (Hc & Hr & _).
    unfold cameras, renders in *. cbn [app flat_map].
    rewrite !flat_map_app, Hc, Hr. cbn [flat_map app].
    now rewrite !app_nil_r.
Qed.

(** X8.  A run that ends well writes ref.png, out.png and diff.png, in this
    order and once, for the first frame of the manifest, and nothing else;
    over a manifest without frames it writes nothing. *)
Theorem debug_images_of_first_frame (data_dir : string)
  (test_transforms : Transforms) (ev : list Event) (s : Summary)
  (frames : list Frame) :
  evaluate' data_dir test_transforms = (ev, inr s) ->
  test_transforms !! "frames"%string = Some (JFrames frames) ->
  writes ev = match frames with
              | [] => []
              | _ :: _ => ["ref.png"; "out.png"; "diff.png"]%string
              end.
Proof.
  intros Hrun Hframes.
  destruct (evaluate_cases data_dir test_transforms)
    as [[e H]|[(fov & e & H)|(fov & frames' & Hf & H)]];
    try (rewrite H in Hrun; discriminate).
  rewrite Hframes in Hf. injection Hf as <-.
  destruct (eval_loop_trace data_dir frames 0%nat acc0) as [_ Hok].
  destruct (eval_loop' data_dir 0 frames acc0) as [ev0 [e|acc]];
    cbn [fst snd] in *.
  - rewrite H in Hrun. discriminate.
  - destruct H as (s' & _ & H). rewrite H in Hrun. injection Hrun as <- <-.
    destruct (Hok acc eq_refl) as (_ & _ & Hw).
    unfold writes in *. cbn [app flat_map].
    rewrite !flat_map_app, Hw. cbn [flat_map app].
    rewrite app_nil_r. destruct frames; reflexivity.
Qed.

End EvaluationTrace.

Lemma one_render_per_frame_witness :
  EvalTrace.cameras
    (fst (Evaluation.evaluate (fun _ => 30%R) (fun x => x) (fun x => x)
            (fun _ _ => (1 / 1000)%R) (fun _ => true)
            (fun _ => Some (Image.mkImage 1 1 [[0; 0; 0; 0]%R]))
            (fun _ _ _ _ => [[1; 1; 1; 1]%R]) "data" Evaluation.one_frame))
  = [[[1; 0; 0; 0]; [0; 1; 0; 0]; [0; 0; 1; 4]]%R].
Proof.
  assert (E : exists ev s,
             Evaluation.evaluate (fun _ => 30%R) (fun x => x) (fun x => x)
               (fun _ _ => (1 / 1000)%R) (fun _ => true)
               (fun _ => Some (Image.mkImage 1 1 [[0; 0; 0; 0]%R]))
               (fun _ _ _ _ => [[1; 1; 1; 1]%R]) "data" Evaluation.one_frame
             = (ev, inr s))
    by (eexists _, _; reflexivity).
  destruct E as (ev & s & E). rewrite E. cbn [fst].
  apply (proj1 (one_render_per_frame _ _ _ _ _ _ _ _ _ _ _
                  [mkFrame "./test/r_0"
                     [[1; 0; 0; 0]; [0; 1; 0; 0]; [0; 0; 1; 4]; [0; 0; 0; 1]]%R]
                  E eq_refl)).
Defined.

Lemma debug_images_of_first_frame_witness :
  EvalTrace.writes
    (fst (Evaluation.evaluate (fun _ => 30%R) (fun x => x) (fun x => x)
            (fun _ _ => (1 / 1000)%R) (fun _ => true)
            (fun _ => Some (Image.mkImage 1 1 [[0; 0; 0; 0]%R]))
            (fun _ _ _ _ => [[1; 1; 1; 1]%R]) "data" Evaluation.one_frame))
  = ["ref.png"; "out.png"; "diff.png"]%string.
Proof.
  assert (E : exists ev s,
             Evaluation.evaluate (fun _ => 30%R) (fun x => x) (fun x => x)
               (fun _ _ => (1 / 1000)%R) (fun _ => true)
               (fun _ => Some (Image.mkImage 1 1 [[0; 0; 0; 0]%R]))
               (fun _ _ _ _ => [[1; 1; 1; 1]%R]) "data" Evaluation.one_frame
             = (ev, inr s))
    by (eexists _, _; reflexivity).
  destruct E as (ev & s & E). rewrite E. cbn [fst].
  apply (debug_images_of_first_frame _ _ _ _ _ _ _ _ _ _ _
           [mkFrame "./test/r_0"
              [[1; 0; 0; 0]; [0; 1; 0; 0]; [0; 0; 1; 4]; [0; 0; 0; 1]]%R]
           E eq_refl).
Defined.

(** ** The evaluation run: the range and the missing keys *)
Section EvaluationMore.

Import Evaluation.
Open Scope R_scope.

Variable mse2psnr : R -> R.

(** One frame widens the range to hold its PSNR and keeps what it held. *)
Lemma accumulate_range (acc acc1 : Accum) (mse shown : R) :
  accumulate mse2psnr acc mse = Some (acc1, shown) ->
  minpsnr acc1 <= minpsnr acc /\ maxpsnr acc <= maxpsnr acc1
  /\ minpsnr acc1 <= mse2psnr mse <= maxpsnr acc1.
Proof.
  rewrite accumulate_eq. intros [= <- _]. cbn [minpsnr maxpsnr].
  destruct (Rlt_dec _ _); destruct (Rgt_dec _ _); lra.
Qed.

Lemma accumulate_all_range (mses : list R) :
  forall acc acc1,
    accumulate_all mse2psnr mses acc = Some acc1 ->
    minpsnr acc1 <= minpsnr acc /\ maxpsnr acc <= maxpsnr acc1
    /\ Forall (fun mse => minpsnr acc1 <= mse2psnr mse <= maxpsnr acc1) mses.
Proof.
  induction mses as [|mse rest IH]; intros acc acc1; cbn [accumulate_all].
  - intros [= <-]. repeat split; try lra. constructor.
  - destruct (accumulate mse2psnr acc mse) as [[acc2 shown]|] eqn:E;
      [|discriminate].
    intros Hrest. apply accumulate_range in E as (Hmin & Hmax & Hin).
    destruct (IH _ _ Hrest) as (Hmin' & Hmax' & Hall).
    repeat split; try lra. constructor; [lra | exact Hall].
Qed.

(** The sum of values that lie in a range lies in that range, scaled. *)
Lemma fold_left_Rplus_range (lo hi : R) (xs : list R) :
  Forall (fun x => lo <= x <= hi) xs ->
  forall start,
    start + INR (length xs) * lo <= fold_left Rplus xs start
    <= start + INR (length xs) * hi.
Proof.
  induction 1 as [|x xs Hx _ IH]; intros start.
  - cbn. lra.
  - cbn [fold_left length]. rewrite S_INR.
    specialize (IH (start + x)). lra.
Qed.


End EvaluationMore.


(** ** The evaluation run: how it can fail *)
Section EvaluationErrors.

Import Evaluation.
Open Scope R_scope.

Variable mse2psnr : R -> R.
Variables linear_to_srgb srgb_to_linear : R -> R.
Variable compute_error_MSE : Image.Image -> Image.Image -> R.
Variable isfile : string -> bool.
Variable read_image : string -> option Image.Image.
Variable render : Pose.Matrix -> nat -> nat -> Z -> list Image.Pixel.

Local Abbreviation frame_mse' :=
  (frame_mse linear_to_srgb srgb_to_linear compute_error_MSE isfile
             read_image render).
Local Abbreviation eval_loop' :=
  (eval_loop mse2psnr linear_to_srgb srgb_to_linear compute_error_MSE isfile
             read_image render).
Local Abbreviation evaluate' :=
  (evaluate mse2psnr linear_to_srgb srgb_to_linear compute_error_MSE isfile
            read_image render).

Local Abbreviation frame_failure :=
  (EvalTrace.frame_failure isfile read_image).

Lemma frame_mse_failure (data_dir : string) (i : nat) (frame : Frame) (e : Exn) :
  snd (frame_mse' data_dir i frame) = inl e -> frame_failure data_dir frame e.
Proof.
  unfold frame_mse, EvalTrace.frame_failure.
  destruct (read_image _) as [ref0|] eqn:Eread.
  - repeat match goal with
           | |- context [match ?x with Some _ => _ | None => _ end] => destruct x
           end; cbn [snd]; intros [= <-]; now left.
  - cbn [snd]. intros [= <-]. right. split; reflexivity.
Qed.

Lemma eval_loop_failure (data_dir : string) (frames : list Frame) :
  forall i acc e,
    snd (eval_loop' data_dir i frames acc) = inl e ->
    exists frame, In frame frames /\ frame_failure data_dir frame e.
Proof.
  induction frames as [|frame rest IH]; intros i acc e; cbn [eval_loop].
  - discriminate.
  - pose proof (frame_mse_failure data_dir i frame) as Hf.
    destruct (frame_mse' data_dir i frame) as [ev [e0|mse]]; cbn [snd] in *.
    + intros [= <-]. exists frame. split; [now left | now apply Hf].
    + rewrite accumulate_eq.
      match goal with |- context [eval_loop' _ ?j _ ?acc2] =>
        specialize (IH j acc2 e);
        destruct (eval_loop' data_dir j rest acc2) as [ev' r]
      end.
      cbn [snd] in *. intros Hr.
      destruct (IH Hr) as (frame' & Hin & Hfail).
      exists frame'. split; [now right | exact Hfail].
Qed.


End EvaluationErrors.


(** ** Compositing: shapes and opaque images *)
Section CompositeMore.

Import Image.
Open Scope R_scope.

Variables linear_to_srgb srgb_to_linear : R -> R.

Lemma composite_white_none (p : Pixel) :
  composite_white p = None <-> (1 <= length p <= 3)%nat.
Proof.
  destruct p as [|a [|b [|c [|d rest]]]];
    unfold composite_white, chan_slice, iadd; cbn;
    split; intros H; try discriminate; try reflexivity; lia.
Qed.

Lemma composite_render_pixel_none (p : Pixel) :
  composite_render_pixel linear_to_srgb srgb_to_linear p = None
  <-> (1 <= length p <= 3)%nat.
Proof.
  destruct p as [|a [|b [|c [|d rest]]]];
    unfold composite_render_pixel, composite_white, chan_assign, chan_slice, iadd;
    cbn; split; intros H; try discriminate; try reflexivity; lia.
Qed.

(** X11.  Compositing fails exactly on an image that has a position with
    one, two or three channels: an image without alpha (RGB or grey) cannot
    be evaluated, while four or more channels, or none, go through.  This
    holds for the reference image and for the render alike. *)
Theorem compositing_needs_alpha (im : Image) :
  (composite_ref im = None
   <-> Exists (fun p => (1 <= length p <= 3)%nat) (pixels im))
  /\ (composite_render linear_to_srgb srgb_to_linear im = None
      <-> Exists (fun p => (1 <= length p <= 3)%nat) (pixels im)).
Proof.
  unfold composite_ref, composite_render, at_every_pixel. split.
  - destruct (mapM composite_white (pixels im)) as [ps|] eqn:E.
    + split; [discriminate|]. intros Hex.
      assert (Hn : mapM composite_white (pixels im) = None).
      { apply mapM_None_2. eapply Exists_impl; [exact Hex|].
        intros p Hp. now apply composite_white_none. }
      congruence.
    + split; [|reflexivity]. intros _.
      apply mapM_None_1 in E. eapply Exists_impl; [exact E|].
      intros p Hp. now apply composite_white_none.
  - destruct (mapM (composite_render_pixel linear_to_srgb srgb_to_linear)
                   (pixels im)) as [ps|] eqn:E.
    + split; [discriminate|]. intros Hex.
      assert (Hn : mapM (composite_render_pixel linear_to_srgb srgb_to_linear)
                        (pixels im) = None).
      { apply mapM_None_2. eapply Exists_impl; [exact Hex|].
        intros p Hp. now apply composite_render_pixel_none. }
      congruence.
    + split; [|reflexivity]. intros _.
      apply mapM_None_1 in E. eapply Exists_impl; [exact E|].
      intros p Hp. now apply composite_render_pixel_none.
Qed.

Lemma iadd_length (p t q : Pixel) :
  iadd p t = Some q -> length q = length p.
Proof.
  unfold iadd. destruct t as [|v [|w t]].
  - destruct (Nat.eqb _ _) eqn:E; [|discriminate].
    intros [= <-]. apply Nat.eqb_eq in E. destruct p; [reflexivity|discriminate].
  - intros [= <-]. apply length_map.
  - destruct (Nat.eqb _ _) eqn:E; [|discriminate].
    intros [= <-]. apply Nat.eqb_eq in E.
    rewrite length_map, length_combine. lia.
Qed.

Lemma chan_assign_rgb_length (f : R -> R) (p : Pixel) :
  length (chan_assign 0 3 p (map f (chan_slice 0 3 p))) = length p.
Proof.
  unfold chan_assign, chan_slice.
  change (3 - 0)%nat with 3%nat. change (skipn 0 p) with p.
  change (firstn 0 p) with (@nil R).
  rewrite app_nil_l, length_app, length_map, <- length_app, firstn_skipn.
  reflexivity.
Qed.

Lemma composite_white_length (p q : Pixel) :
  composite_white p = Some q -> length q = length p.
Proof. unfold composite_white. apply iadd_length. Qed.

Lemma composite_render_pixel_length (p q : Pixel) :
  composite_render_pixel linear_to_srgb srgb_to_linear p = Some q ->
  length q = length p.
Proof.
  unfold composite_render_pixel.
  destruct (composite_white _) as [p2|] eqn:E; [|discriminate].
  intros [= <-]. apply composite_white_length in E.
  now rewrite chan_assign_rgb_length, E, chan_assign_rgb_length.
Qed.

Lemma at_every_pixel_shape (f : Pixel -> option Pixel) (im im' : Image) :
  (forall p q, f p = Some q -> length q = length p) ->
  at_every_pixel f im = Some im' ->
  height im' = height im /\ width im' = width im
  /\ Forall2 (fun p q => length q = length p) (pixels im) (pixels im').
Proof.
  intros Hf. unfold at_every_pixel.
  destruct (mapM f (pixels im)) as [ps|] eqn:E; [|discriminate].
  intros [= <-]. cbn. repeat split.
  apply mapM_Some_1 in E. eapply Forall2_impl; [exact E|].
  intros p q. apply Hf.
Qed.

(** X12.  Compositing keeps the shape of an image: its height, its width,
    the number of its positions and the number of channels at each, for the
    reference image and for the render. *)
Theorem compositing_keeps_shape (im im' : Image) :
  (composite_ref im = Some im' ->
   height im' = height im /\ width im' = width im
   /\ Forall2 (fun p q => length q = length p) (pixels im) (pixels im'))
  /\ (composite_render linear_to_srgb srgb_to_linear im = Some im' ->
      height im' = height im /\ width im' = width im
      /\ Forall2 (fun p q => length q = length p) (pixels im) (pixels im')).
Proof.
  split.
  - apply at_every_pixel_shape. exact composite_white_length.
  - apply at_every_pixel_shape. exact composite_render_pixel_length.
Qed.

Lemma composite_white_opaque (p : Pixel) :
  (exists r g b, p = [r; g; b; 1]) -> composite_white p = Some p.
Proof.
  intros (r & g & b & ->). unfold composite_white, chan_slice, iadd. cbn.
  replace (1 - 1) with 0 by lra. now rewrite !Rplus_0_r.
Qed.

Lemma composite_render_pixel_opaque (p : Pixel) :
  (forall x, srgb_to_linear (linear_to_srgb x) = x) ->
  (exists r g b, p = [r; g; b; 1]) ->
  composite_render_pixel linear_to_srgb srgb_to_linear p = Some p.
Proof.
  intros Hinv (r & g & b & ->).
  unfold composite_render_pixel, composite_white, chan_assign, chan_slice, iadd.
  cbn. replace (1 - 1) with 0 by lra. now rewrite !Rplus_0_r, !Hinv.
Qed.

(** X13.  An opaque RGBA image (alpha 1 everywhere) is left as it is by the
    compositing of the reference image, and by that of the render when
    [srgb_to_linear] undoes [linear_to_srgb]. *)
Theorem opaque_image_unchanged (im : Image) :
  Forall (fun p => exists r g b, p = [r; g; b; 1]) (pixels im) ->
  composite_ref im = Some im
  /\ ((forall x, srgb_to_linear (linear_to_srgb x) = x) ->
      composite_render linear_to_srgb srgb_to_linear im = Some im).
Proof.
  intros Hop. destruct im as [h w ps]. cbn [pixels] in Hop.
  unfold composite_ref, composite_render, at_every_pixel.
  cbn [pixels height width]. split.
  - rewrite (mapM_pointwise _ composite_white (fun p => p) ps
               composite_white_opaque Hop).
    now rewrite map_id.
  - intros Hinv.
    rewrite (mapM_pointwise _
               (composite_render_pixel linear_to_srgb srgb_to_linear)
               (fun p => p) ps
               (fun p => composite_render_pixel_opaque p Hinv) Hop).
    now rewrite map_id.
Qed.

End CompositeMore.

Lemma compositing_keeps_shape_witness :
  Image.height (Image.mkImage 1 1 [[0 + (1 - 0); 0 + (1 - 0); 0 + (1 - 0);
                                    0 + (1 - 0)]%R]) = 1%nat.
Proof.
  apply (compositing_keeps_shape (fun x => x) (fun x => x)
           (Image.mkImage 1 1 [[0; 0; 0; 0]%R])
           (Image.mkImage 1 1 [[0 + (1 - 0); 0 + (1 - 0); 0 + (1 - 0);
                                0 + (1 - 0)]%R])).
  reflexivity.
Defined.

Lemma opaque_image_unchanged_witness :
  Image.composite_ref (Image.mkImage 1 1 [[0; 0; 0; 1]%R])
  = Some (Image.mkImage 1 1 [[0; 0; 0; 1]%R]).
Proof.
  refine (proj1 (opaque_image_unchanged (fun x => x) (fun x => x)
                   (Image.mkImage 1 1 [[0; 0; 0; 1]%R]) _)).
  constructor; [|constructor].
  exists 0%R, 0%R, 0%R. reflexivity.
Defined.

(** ** Paths: the directory of a joined name *)
Section PathFacts.

Import Path.

Lemma append_nil_l (s : string) : EmptyString +:+ s = s.
Proof. reflexivity. Qed.

Lemma append_cons (c : ascii) (a b : string) :
  String c a +:+ b = String c (a +:+ b).
Proof. reflexivity. Qed.

(** The two parts of a split path make up the path, and the second has no
    separator. *)
Lemma split_at_last_sep_spec (p : string) :
  fst (split_at_last_sep p) +:+ snd (split_at_last_sep p) = p
  /\ contains "/" (snd (split_at_last_sep p)) = false.
Proof.
  induction p as [|c r [IHc IHn]]; [split; reflexivity|].
  cbn [split_at_last_sep].
  destruct (split_at_last_sep r) as [h t]. cbn [fst snd] in *.
  destruct h as [|c' h'].
  - rewrite append_nil_l in IHc. subst t.
    unfold is_sep. destruct (Ascii.eqb c "/") eqn:E; cbn [fst snd].
    + split; [reflexivity | exact IHn].
    + split; [reflexivity|]. cbn [contains]. now rewrite E.
  - cbn [fst snd]. rewrite append_cons, IHc. split; [reflexivity | exact IHn].
Qed.

(** The last component of a path has no separator. *)
Lemma basename_no_sep (p : string) : contains "/" (basename p) = false.
Proof. apply split_at_last_sep_spec. Qed.

Lemma split_no_sep (p : string) :
  contains "/" p = false -> split_at_last_sep p = (EmptyString, p).
Proof.
  induction p as [|c r IH]; [reflexivity|]. cbn [contains split_at_last_sep].
  intros H. apply orb_false_elim in H as [Hc Hr].
  rewrite (IH Hr). unfold is_sep. now rewrite Hc.
Qed.

(** A name without separator has no directory. *)
Lemma dirname_no_sep (p : string) :
  contains "/" p = false -> dirname p = EmptyString.
Proof.
  intros H. unfold dirname. now rewrite (split_no_sep p H).
Qed.

Lemma split_head_nonempty (p : string) :
  contains "/" p = true -> fst (split_at_last_sep p) <> EmptyString.
Proof.
  induction p as [|c r IH]; [discriminate|]. cbn [contains split_at_last_sep].
  intros H. destruct (split_at_last_sep r) as [h t]. cbn [fst] in IH.
  destruct h as [|c' h'].
  - unfold is_sep. destruct (Ascii.eqb c "/") eqn:E; [discriminate|].
    cbn [orb] in H. now apply IH in H.
  - discriminate.
Qed.

Lemma rstrip_sep_nonempty (s : string) :
  all_sep s = false -> rstrip_sep s <> EmptyString.
Proof.
  destruct s as [|c r]; [discriminate|]. cbn [all_sep rstrip_sep].
  intros H. rewrite andb_comm, H. discriminate.
Qed.

(** A path with a separator has a directory. *)
Lemma dirname_nonempty (p : string) :
  contains "/" p = true -> dirname p <> EmptyString.
Proof.
  intros H. apply split_head_nonempty in H. unfold dirname.
  destruct (String.eqb_spec (fst (split_at_last_sep p)) "") as [E|E];
    [contradiction|].
  cbn [negb andb].
  destruct (all_sep (fst (split_at_last_sep p))) eqn:Ea; cbn [negb].
  - exact H.
  - now apply rstrip_sep_nonempty.
Qed.

Lemma contains_app (c : ascii) (a b : string) :
  contains c (a +:+ b) = contains c a || contains c b.
Proof.
  induction a as [|x a IH]; [reflexivity|].
  rewrite append_cons. cbn [contains]. now rewrite IH, orb_assoc.
Qed.

Lemma startswith_no_sep (b : string) :
  contains "/" b = false -> startswith_sep b = false.
Proof.
  destruct b as [|c r]; [reflexivity|]. cbn [contains startswith_sep].
  unfold is_sep. intros H. now apply orb_false_elim in H as [-> _].
Qed.

Lemma endswith_sep_contains (a : string) :
  endswith_sep a = true -> contains "/" a = true.
Proof.
  induction a as [|c r IH]; [discriminate|]. cbn [endswith_sep contains].
  destruct r as [|c' r'].
  - unfold is_sep. intros ->. reflexivity.
  - intros H. rewrite (IH H). apply orb_true_r.
Qed.

(** A name without separator joined to the empty directory is the name;
    joined to any other directory, the result has a separator. *)
Lemma join_no_sep (a b : string) :
  contains "/" b = false ->
  (a = EmptyString -> join a b = b)
  /\ (a <> EmptyString -> contains "/" (join a b) = true).
Proof.
  intros Hb. unfold join. rewrite (startswith_no_sep b Hb). split.
  - intros ->. reflexivity.
  - intros Ha. destruct (String.eqb_spec a "") as [E|E]; [contradiction|].
    cbn [orb]. destruct (endswith_sep a) eqn:Ee.
    + rewrite contains_app, (endswith_sep_contains a Ee). reflexivity.
    + rewrite !contains_app. cbn. apply orb_true_r.
Qed.

End PathFacts.

(** ** Screenshots: directories, order and failures *)
Section ScreenshotMore.

Import Screenshot.

Lemma written_app (e1 e2 : list Event) :
  written (e1 ++ e2) = written e1 ++ written e2.
Proof. apply flat_map_app. Qed.

Lemma poses_app (e1 e2 : list Event) :
  poses (e1 ++ e2) = poses e1 ++ poses e2.
Proof. apply flat_map_app. Qed.

(** The name under which a frame is written. *)
Lemma outname_dir (dir file_path : string) :
  (dir = EmptyString ->
   Path.dirname (Path.join dir (Path.basename file_path)) = EmptyString)
  /\ (dir <> EmptyString ->
      Path.dirname (Path.join dir (Path.basename file_path)) <> EmptyString).
Proof.
  destruct (join_no_sep dir (Path.basename file_path) (basename_no_sep _))
    as [He Hn].
  split; intros H.
  - rewrite (He H). apply dirname_no_sep, basename_no_sep.
  - apply dirname_nonempty, Hn, H.
Qed.

(** With the empty directory a frame is never written. *)
Lemma shoot_empty_dir (a : Args) (ref_transforms : Transforms) (idx : Z) :
  screenshot_dir a = EmptyString ->
  snd (shoot a ref_transforms idx) <> None
  /\ written (fst (shoot a ref_transforms idx)) = [].
Proof.
  intros Hdir. unfold shoot.
  destruct (ref_transforms !! "frames"%string) as [[z|x|frames]|];
    try (cbn; split; [discriminate | reflexivity]).
  destruct (py_index frames idx) as [f|];
    [|cbn; split; [discriminate | reflexivity]].
  destruct (size_or (screenshot_w a) ref_transforms "w") as [e|w];
    [cbn; split; [discriminate | reflexivity]|].
  destruct (size_or (screenshot_h a) ref_transforms "h") as [e|h];
    [cbn; split; [discriminate | reflexivity]|].
  destruct (outname_dir (screenshot_dir a) (file_path f)) as [He _].
  rewrite (He Hdir). cbn. split; [discriminate | reflexivity].
Qed.

(** X14.  With a manifest and the default, empty [--screenshot_dir] no
    screenshot is ever written and the run always ends in an exception:
    the name of each frame has no directory part, and [os.makedirs] of the
    empty path fails after the frame was rendered. *)
Theorem manifest_screenshots_need_a_directory (a : Args)
  (ref_transforms : Transforms) (network_stem : string) :
  screenshot_w a <> 0 -> screenshot_dir a = EmptyString ->
  size ref_transforms <> 0%nat ->
  snd (screenshots a ref_transforms network_stem) <> None
  /\ written (fst (screenshots a ref_transforms network_stem)) = [].
Proof.
  intros Hw Hdir Hsize. unfold screenshots.
  replace (screenshot_w a =? 0) with false by lia.
  replace (Nat.eqb (size ref_transforms) 0) with false
    by (symmetry; now apply Nat.eqb_neq).
  destruct (ref_transforms !! "camera_angle_x"%string) as [angle|];
    [|cbn; split; [discriminate | reflexivity]].
  destruct (Evaluation.fov_degrees angle) as [fov|];
    [|cbn; split; [discriminate | reflexivity]].
  unfold frames_to_shoot.
  assert (Hne : forall idx idxs,
             let r := shoot_all a ref_transforms (idx :: idxs) in
             snd r <> None /\ written (fst r) = []).
  { intros idx idxs. cbn [shoot_all].
    destruct (shoot_empty_dir a ref_transforms idx Hdir) as [Hs Hwr].
    destruct (shoot a ref_transforms idx) as [ev [e|]]; cbn [fst snd] in *.
    - split; [discriminate | exact Hwr].
    - contradiction. }
  destruct (screenshot_frames a) as [[|idx idxs]|].
  - destruct (size ref_transforms) as [|n] eqn:En; [contradiction|].
    unfold py_range. cbn [seq map].
    specialize (Hne (Z.of_nat 0) (map Z.of_nat (seq 1 n))). cbv zeta in Hne.
    destruct (shoot_all a ref_transforms _) as [ev r]. cbn [fst snd] in *.
    destruct Hne as [Hs Hwr]. split; [exact Hs|].
    now rewrite written_app, Hwr.
  - specialize (Hne idx idxs). cbv zeta in Hne.
    destruct (shoot_all a ref_transforms _) as [ev r]. cbn [fst snd] in *.
    destruct Hne as [Hs Hwr]. split; [exact Hs|].
    now rewrite written_app, Hwr.
  - cbn. split; [discriminate | reflexivity].
Qed.

Lemma manifest_screenshots_need_a_directory_witness :
  written (fst (screenshots (mkArgs "lego" (Some [0]) "" 800 800 16 false false 0)
                            three_frames "base")) = [].
Proof.
  apply (manifest_screenshots_need_a_directory
           (mkArgs "lego" (Some [0]) "" 800 800 16 false false 0)
           three_frames "base").
  - cbn. lia.
  - reflexivity.
  - vm_compute. lia.
Defined.

End ScreenshotMore.

Section ScreenshotOrder.

Import Screenshot.

(** The name under which the frame [f] is written. *)
Local Abbreviation outname a f :=
  (Path.join (screenshot_dir a) (Path.basename (file_path f))).

Lemma size_or_explicit (explicit : Z) (ref_transforms : Transforms)
  (key : string) :
  explicit <> 0 -> size_or explicit ref_transforms key = inr explicit.
Proof.
  intros H. unfold size_or. now replace (explicit =? 0) with false by lia.
Qed.

(** One frame that goes through. *)
Lemma shoot_ok (a : Args) (ref_transforms : Transforms) (frames : list Frame)
  (idx : Z) (f : Frame) :
  screenshot_dir a <> EmptyString ->
  screenshot_w a <> 0 -> screenshot_h a <> 0 ->
  ref_transforms !! "frames"%string = Some (JFrames frames) ->
  py_index frames idx = Some f ->
  shoot a ref_transforms idx
  = ([EvSetCamera (Pose.camera_pose (transform_matrix f));
      EvRender (screenshot_w a) (screenshot_h a) (screenshot_spp a);
      EvMakedirs (Path.dirname (outname a f));
      EvWriteImage (outname a f)], None).
Proof.
  intros Hdir Hw Hh Hframes Hidx. unfold shoot.
  rewrite Hframes, Hidx, !size_or_explicit by assumption.
  destruct (outname_dir (screenshot_dir a) (file_path f)) as [_ Hn].
  destruct (String.eqb_spec (Path.dirname (outname a f)) "") as [E|E];
    [now apply Hn in E|].
  reflexivity.
Qed.

(** The loop over the indices is sequential: what follows a failure is
    not touched, what precedes it stays. *)
Lemma shoot_all_app (a : Args) (ref_transforms : Transforms) (l1 l2 : list Z) :
  shoot_all a ref_transforms (l1 ++ l2)
  = match shoot_all a ref_transforms l1 with
    | (ev1, Some e) => (ev1, Some e)
    | (ev1, None) =>
        let '(ev2, r) := shoot_all a ref_transforms l2 in (ev1 ++ ev2, r)
    end.
Proof.
  induction l1 as [|idx l1 IH]; cbn [app shoot_all].
  - destruct (shoot_all a ref_transforms l2) as [ev2 r]. reflexivity.
  - destruct (shoot a ref_transforms idx) as [ev [e|]]; [reflexivity|].
    rewrite IH.
    destruct (shoot_all a ref_transforms l1) as [ev1 [e|]]; [reflexivity|].
    destruct (shoot_all a ref_transforms l2) as [ev2 r].
    now rewrite app_assoc.
Qed.

Lemma shoot_all_ok (a : Args) (ref_transforms : Transforms)
  (frames : list Frame) (idxs : list Z) (fs : list Frame) :
  screenshot_dir a <> EmptyString ->
  screenshot_w a <> 0 -> screenshot_h a <> 0 ->
  ref_transforms !! "frames"%string = Some (JFrames frames) ->
  Forall2 (fun idx f => py_index frames idx = Some f) idxs fs ->
  snd (shoot_all a ref_transforms idxs) = None
  /\ written (fst (shoot_all a ref_transforms idxs))
     = map (fun f => outname a f) fs
  /\ poses (fst (shoot_all a ref_transforms idxs))
     = map (fun f => Pose.camera_pose (transform_matrix f)) fs.
Proof.
  intros Hdir Hw Hh Hframes.
  induction 1 as [|idx f idxs fs Hidx _ IH]; cbn [shoot_all map].
  - repeat split.
  - rewrite (shoot_ok a ref_transforms frames idx f) by assumption.
    destruct (shoot_all a ref_transforms idxs) as [ev r]. cbn [fst snd] in *.
    destruct IH as (Hr & Hwr & Hp). split; [exact Hr|].
    rewrite written_app, poses_app, Hwr, Hp. split; reflexivity.
Qed.

(** X15.  With a manifest, a directory, explicit sizes and explicit frame
    indices that all exist, the frames are shot in the order the indices
    were given: each is rendered with its own pose and written to
    <directory>/<last component of its file_path>, and the run ends
    well. *)
Theorem explicit_frames_in_given_order (a : Args) (ref_transforms : Transforms)
  (network_stem : string) (angle : JValue) (fov : R) (frames : list Frame)
  (idx : Z) (idxs : list Z) (fs : list Frame) :
  screenshot_frames a = Some (idx :: idxs) ->
  screenshot_dir a <> EmptyString ->
  screenshot_w a <> 0 -> screenshot_h a <> 0 ->
  ref_transforms !! "camera_angle_x"%string = Some angle ->
  Evaluation.fov_degrees angle = Some fov ->
  ref_transforms !! "frames"%string = Some (JFrames frames) ->
  Forall2 (fun i f => py_index frames i = Some f) (idx :: idxs) fs ->
  snd (screenshots a ref_transforms network_stem) = None
  /\ written (fst (screenshots a ref_transforms network_stem))
     = map (fun f => outname a f) fs
  /\ poses (fst (screenshots a ref_transforms network_stem))
     = map (fun f => Pose.camera_pose (transform_matrix f)) fs.
Proof.
  intros Hsel Hdir Hw Hh Hangle Hfov Hframes Hall.
  unfold screenshots, frames_to_shoot.
  replace (screenshot_w a =? 0) with false by lia.
  assert (Hsize : size ref_transforms <> 0%nat)
    by (apply (map_size_ne_0_lookup_2 _ "frames"%string); rewrite Hframes; eauto).
  replace (Nat.eqb (size ref_transforms) 0) with false
    by (symmetry; now apply Nat.eqb_neq).
  rewrite Hangle, Hfov, Hsel.
  destruct (shoot_all_ok a ref_transforms frames (idx :: idxs) fs
              Hdir Hw Hh Hframes Hall) as (Hr & Hwr & Hp).
  destruct (shoot_all a ref_transforms (idx :: idxs)) as [ev r].
  cbn [fst snd] in *. rewrite written_app, poses_app, Hwr, Hp.
  repeat split. exact Hr.
Qed.

(** X16.  An index that does not exist stops the loop with an IndexError:
    the frames before it have been rendered and written, those after it are
    not touched. *)
Theorem missing_frame_stops_the_loop (a : Args) (ref_transforms : Transforms)
  (frames : list Frame) (good : list Z) (fs : list Frame) (bad : Z)
  (rest : list Z) :
  screenshot_dir a <> EmptyString ->
  screenshot_w a <> 0 -> screenshot_h a <> 0 ->
  ref_transforms !! "frames"%string = Some (JFrames frames) ->
  Forall2 (fun i f => py_index frames i = Some f) good fs ->
  py_index frames bad = None ->
  shoot_all a ref_transforms (good ++ bad :: rest)
  = (fst (shoot_all a ref_transforms good), Some IndexError)
  /\ written (fst (shoot_all a ref_transforms (good ++ bad :: rest)))
     = map (fun f => outname a f) fs.
Proof.
  intros Hdir Hw Hh Hframes Hgood Hbad.
  destruct (shoot_all_ok a ref_transforms frames good fs
              Hdir Hw Hh Hframes Hgood) as (Hr & Hwr & _).
  rewrite shoot_all_app.
  destruct (shoot_all a ref_transforms good) as [ev1 r1]. cbn [fst snd] in *.
  subst r1. cbn [shoot_all]. unfold shoot. rewrite Hframes, Hbad.
  cbn [fst]. rewrite app_nil_r. split; [reflexivity | exact Hwr].
Qed.

End ScreenshotOrder.

Lemma explicit_frames_in_given_order_witness :
  Screenshot.written
    (fst (Screenshot.screenshots
            (mkArgs "lego" (Some [2; 0]) "out" 800 800 16 false false 0)
            Screenshot.three_frames "base"))
  = ["out/r_2.png"; "out/r_0.png"]%string.
Proof.
  apply (explicit_frames_in_given_order
           (mkArgs "lego" (Some [2; 0]) "out" 800 800 16 false false 0)
           Screenshot.three_frames "base" (JFloat 1) (1 * 180 / PI)%R
           [mkFrame "./train/r_0.png" []; mkFrame "./train/r_1.png" [];
            mkFrame "./train/r_2.png" []]
           2 [0]
           [mkFrame "./train/r_2.png" []; mkFrame "./train/r_0.png" []]).
  - reflexivity.
  - discriminate.
  - cbn. lia.
  - cbn. lia.
  - reflexivity.
  - reflexivity.
  - reflexivity.
  - repeat constructor.
Defined.

Lemma missing_frame_stops_the_loop_witness :
  Screenshot.written
    (fst (Screenshot.shoot_all
            (mkArgs "lego" (Some [1; 7; 0]) "out" 800 800 16 false false 0)
            Screenshot.three_frames ([1] ++ 7 :: [0])))
  = ["out/r_1.png"]%string.
Proof.
  apply (missing_frame_stops_the_loop
           (mkArgs "lego" (Some [1; 7; 0]) "out" 800 800 16 false false 0)
           Screenshot.three_frames
           [mkFrame "./train/r_0.png" []; mkFrame "./train/r_1.png" [];
            mkFrame "./train/r_2.png" []]
           [1] [mkFrame "./train/r_1.png" []] 7 [0]).
  - discriminate.
  - cbn. lia.
  - cbn. lia.
  - reflexivity.
  - repeat constructor.
  - reflexivity.
Defined.

Section ScreenshotInputs.

Import Screenshot.

Lemma shoot_ignores_w (a : Args) (ref_transforms : Transforms) (v : JValue)
  (idx : Z) :
  screenshot_w a <> 0 ->
  shoot a (<["w"%string := v]> ref_transforms) idx = shoot a ref_transforms idx.
Proof.
  intros Hw. unfold shoot.
  rewrite lookup_insert_ne by discriminate.
  rewrite !(size_or_explicit (screenshot_w a)) by assumption.
  unfold size_or. rewrite lookup_insert_ne by discriminate. reflexivity.
Qed.

Lemma shoot_all_ignores_w (a : Args) (ref_transforms : Transforms) (v : JValue)
  (idxs : list Z) :
  screenshot_w a <> 0 ->
  shoot_all a (<["w"%string := v]> ref_transforms) idxs
  = shoot_all a ref_transforms idxs.
Proof.
  intros Hw. induction idxs as [|idx idxs IH]; cbn [shoot_all]; [reflexivity|].
  now rewrite shoot_ignores_w, IH.
Qed.


Lemma startswith_sep_app (s t : string) :
  Path.startswith_sep s = true -> Path.startswith_sep (s +:+ t) = true.
Proof. destruct s as [|c s]; [discriminate|]. now rewrite append_cons. Qed.

(** X18.  Without a manifest one image is rendered, at the sizes and samples
    given, and written as <directory>/<scene>_<network stem>.png: the run
    cannot fail on the directory, empty or not.  When [--scene] is an
    absolute path the directory is not used at all: the image lands beside
    the scene. *)
Theorem single_screenshot (a : Args) (network_stem : string) :
  screenshot_w a <> 0 ->
  snd (screenshots a ∅ network_stem) = None
  /\ written (fst (screenshots a ∅ network_stem))
     = [Path.join (screenshot_dir a) (scene a +:+ "_" +:+ network_stem)
        +:+ ".png"]
  /\ (Path.startswith_sep (scene a) = true ->
      written (fst (screenshots a ∅ network_stem))
      = [(scene a +:+ "_" +:+ network_stem) +:+ ".png"]).
Proof.
  intros Hw. unfold screenshots.
  replace (screenshot_w a =? 0) with false by lia.
  rewrite map_size_empty. cbn [Nat.eqb fst snd].
  split; [reflexivity|].
  assert (E : written
                ([EvRender (screenshot_w a) (screenshot_h a) (screenshot_spp a)]
                 ++ (if String.eqb
                          (Path.dirname
                             (Path.join (screenshot_dir a)
                                (scene a +:+ "_" +:+ network_stem))) ""
                     then [] else
                       [EvMakedirs
                          (Path.dirname
                             (Path.join (screenshot_dir a)
                                (scene a +:+ "_" +:+ network_stem)))])
                 ++ [EvWriteImage
                       (Path.join (screenshot_dir a)
                          (scene a +:+ "_" +:+ network_stem) +:+ ".png")])
              = [Path.join (screenshot_dir a)
                   (scene a +:+ "_" +:+ network_stem) +:+ ".png"]).
  { rewrite !written_app. destruct (String.eqb _ _); reflexivity. }
  split; [exact E|].
  intros Habs. rewrite E. unfold Path.join.
  now rewrite (startswith_sep_app _ _ Habs).
Qed.

End ScreenshotInputs.


Lemma single_screenshot_witness :
  Screenshot.written
    (fst (Screenshot.screenshots
            (mkArgs "/data/fox" None "out" 256 128 4 false false 0) ∅ "base"))
  = ["/data/fox_base.png"]%string.
Proof.
  apply (single_screenshot
           (mkArgs "/data/fox" None "out" 256 128 4 false false 0) "base").
  - cbn. lia.
  - reflexivity.
Defined.

(** ** Start-up: the mode and the network configuration *)
Section SetupFacts.

Import Setup.

Variables scenes_nerf scenes_image scenes_sdf scenes_volume : Scenes.
Variable ROOT_DIR : string.

Local Abbreviation infer_mode' :=
  (infer_mode scenes_nerf scenes_image scenes_sdf scenes_volume).
Local Abbreviation mode_tables' :=
  (mode_tables scenes_nerf scenes_image scenes_sdf scenes_volume ROOT_DIR).

(** X19.  A mode given on the command line is kept as it is.  A mode that
    is inferred is one of the four, its table holds the scene (so the later
    look-ups of the scene in that table succeed) and its configurations are
    under ROOT_DIR/configs/<mode>; the inference fails exactly when the
    scene is in none of the four tables. *)
Theorem inferred_mode_knows_the_scene (mode scene : string) :
  (mode <> EmptyString -> infer_mode' mode scene = inr mode)
  /\ (forall m, infer_mode' "" scene = inr m ->
        exists scenes,
          mode_tables' m
          = Some (Path.join (Path.join ROOT_DIR "configs") m, scenes)
          /\ in_scenes scene scenes = true)
  /\ (infer_mode' "" scene = inl ValueError
      <-> in_scenes scene scenes_sdf = false
          /\ in_scenes scene scenes_nerf = false
          /\ in_scenes scene scenes_image = false
          /\ in_scenes scene scenes_volume = false).
Proof.
  unfold infer_mode. split; [|split].
  - intros H. destruct (String.eqb_spec mode ""); [contradiction | reflexivity].
  - intros m. cbn [String.eqb].
    destruct (in_scenes scene scenes_sdf) eqn:E1;
      [intros [= <-]; exists scenes_sdf; now split|].
    destruct (in_scenes scene scenes_nerf) eqn:E2;
      [intros [= <-]; exists scenes_nerf; now split|].
    destruct (in_scenes scene scenes_image) eqn:E3;
      [intros [= <-]; exists scenes_image; now split|].
    destruct (in_scenes scene scenes_volume) eqn:E4;
      [intros [= <-]; exists scenes_volume; now split|].
    discriminate.
  - cbn [String.eqb].
    destruct (in_scenes scene scenes_sdf);
      [split; [discriminate | intros (H & _); discriminate]|].
    destruct (in_scenes scene scenes_nerf);
      [split; [discriminate | intros (_ & H & _); discriminate]|].
    destruct (in_scenes scene scenes_image);
      [split; [discriminate | intros (_ & _ & H & _); discriminate]|].
    destruct (in_scenes scene scenes_volume);
      [split; [discriminate | intros (_ & _ & _ & H); discriminate]|].
    split; [now repeat split | reflexivity].
Qed.

Lemma join_isabs (a b : string) :
  isabs a = true -> isabs (Path.join a b) = true.
Proof.
  unfold isabs, Path.join. intros Ha.
  destruct (Path.startswith_sep b) eqn:Eb; [exact Eb|].
  destruct (_ || _); now apply startswith_sep_app.
Qed.

(** X20.  When the directory of the configurations is absolute, so is the
    network configuration handed to the Renderer, whatever the scene and
    [--network]; an absolute [--network] is used as it is, a relative one is
    looked up in that directory. *)
Theorem network_path_is_absolute (configs_dir : string) (scenes : Scenes)
  (scene network_arg : string) :
  isabs configs_dir = true ->
  isabs (network_path configs_dir scenes scene network_arg) = true
  /\ (isabs network_arg = true ->
      network_path configs_dir scenes scene network_arg = network_arg)
  /\ (network_arg <> EmptyString -> isabs network_arg = false ->
      network_path configs_dir scenes scene network_arg
      = Path.join configs_dir network_arg).
Proof.
  intros Hc. unfold network_path.
  set (base := match scenes !! scene with
               | Some entry => _
               | None => _
               end).
  assert (Hbase : isabs base = true).
  { unfold base. destruct (scenes !! scene) as [entry|]; now apply join_isabs. }
  split; [|split].
  - destruct (String.eqb network_arg ""); [now rewrite Hbase|].
    destruct (isabs network_arg) eqn:E; [exact E | now apply join_isabs].
  - intros Habs.
    destruct (String.eqb_spec network_arg "") as [->|_]; [discriminate|].
    now rewrite Habs.
  - intros Hne Hrel.
    destruct (String.eqb_spec network_arg "") as [E|_]; [contradiction|].
    now rewrite Hrel.
Qed.

End SetupFacts.

Lemma inferred_mode_knows_the_scene_witness :
  Setup.infer_mode ∅ ∅ ∅ ∅ "nerf" "fox" = inr "nerf"%string.
Proof.
  apply (inferred_mode_knows_the_scene ∅ ∅ ∅ ∅ "/ngp" "nerf" "fox").
  discriminate.
Defined.

Lemma network_path_is_absolute_witness :
  Setup.isabs (Setup.network_path "/ngp/configs/nerf" ∅ "fox" "small.json")
  = true.
Proof.
  apply (network_path_is_absolute "/ngp/configs/nerf" ∅ "fox" "small.json").
  reflexivity.
Defined.

(** ** The stem of the network configuration (line 135) *)
Section NetworkStemFacts.

Import Path Setup.

Lemma basename_cons (c : ascii) (s : string) :
  basename (String c s)
  = if contains "/" s then basename s
    else if is_sep c then s else String c s.
Proof.
  unfold basename. cbn [split_at_last_sep].
  destruct (contains "/" s) eqn:Ec.
  - pose proof (split_head_nonempty s Ec) as Hh.
    destruct (split_at_last_sep s) as [[|c' h'] t]; [now contradiction Hh|].
    reflexivity.
  - rewrite (split_no_sep s Ec). now destruct (is_sep c).
Qed.

Lemma basename_no_sep_id (s : string) :
  contains "/" s = false -> basename s = s.
Proof. intros H. unfold basename. now rewrite (split_no_sep s H). Qed.

Lemma basename_app (a b : string) :
  basename (a +:+ b)
  = if contains "/" b then basename b else basename a +:+ b.
Proof.
  induction a as [|c a IH].
  - rewrite append_nil_l. destruct (contains "/" b) eqn:E; [reflexivity|].
    now rewrite basename_no_sep_id.
  - rewrite append_cons, !basename_cons, contains_app, IH.
    destruct (contains "/" b) eqn:Eb.
    + now rewrite orb_true_r.
    + rewrite orb_false_r. destruct (contains "/" a); [reflexivity|].
      destruct (is_sep c); [reflexivity | now rewrite append_cons].
Qed.

Lemma basename_endswith_sep (a : string) :
  endswith_sep a = true -> basename a = EmptyString.
Proof.
  induction a as [|c a IH]; [discriminate|].
  rewrite basename_cons. cbn [endswith_sep].
  destruct a as [|c' a'].
  - intros ->. reflexivity.
  - intros H. rewrite (endswith_sep_contains _ H). now apply IH.
Qed.

(** The last component of a joined path is that of its second part. *)
Lemma basename_join (a b : string) : basename (join a b) = basename b.
Proof.
  unfold join. destruct (startswith_sep b); [reflexivity|].
  destruct (String.eqb_spec a "") as [->|Ha]; cbn [orb].
  - now rewrite append_nil_l.
  - destruct (endswith_sep a) eqn:Ee.
    + rewrite basename_app, (basename_endswith_sep a Ee), append_nil_l.
      destruct (contains "/" b) eqn:Eb; [reflexivity|].
      now rewrite basename_no_sep_id.
    + rewrite basename_app. change ("/" +:+ b) with (String "/" b).
      rewrite (basename_cons "/" b).
      replace (contains "/" (String "/" b)) with true by reflexivity.
      destruct (contains "/" b) eqn:Eb; [reflexivity|].
      replace (is_sep "/") with true by reflexivity.
      now rewrite basename_no_sep_id.
Qed.

Lemma split_last_dot_json (n : string) :
  split_last_dot (n +:+ ".json") = Some (n, ".json"%string).
Proof.
  induction n as [|c n IH]; [reflexivity|].
  rewrite append_cons. cbn [split_last_dot]. now rewrite IH.
Qed.

(** X21.  With no [--network], the stem used to name the single screenshot
    is the name of the scene's network configuration, "base" when the scene
    is not in the table or its entry names none: the default screenshot is
    <scene>_base.png.  (A name made of dots only keeps its ".json".) *)
Theorem default_network_stem (configs_dir : string) (scenes : Scenes)
  (scene : string) :
  let name := match scenes !! scene with
              | Some entry => match scene_network entry with
                              | Some n => n
                              | None => "base"%string
                              end
              | None => "base"%string
              end in
  (contains "/" name = false ->
   network_stem (network_path configs_dir scenes scene "")
   = if all_dots name then name +:+ ".json" else name)
  /\ (scenes !! scene = None ->
      network_stem (network_path configs_dir scenes scene "") = "base"%string).
Proof.
  intros name.
  assert (Hbn : basename (network_path configs_dir scenes scene "")
                = basename (name +:+ ".json")).
  { unfold network_path, name. cbn [String.eqb].
    destruct (scenes !! scene) as [entry|];
      destruct (isabs _); now rewrite ?basename_join. }
  assert (Hstem : contains "/" name = false ->
                  network_stem (network_path configs_dir scenes scene "")
                  = if all_dots name then name +:+ ".json" else name).
  { intros Hn. unfold network_stem. rewrite Hbn.
    rewrite basename_no_sep_id
      by (rewrite contains_app, Hn; reflexivity).
    unfold splitext_name. rewrite split_last_dot_json.
    now destruct (all_dots name). }
  split; [exact Hstem|].
  intros Hnone. unfold name in Hstem. rewrite Hnone in Hstem.
  now rewrite Hstem.
Qed.

End NetworkStemFacts.

Lemma default_network_stem_witness :
  Setup.network_stem (Setup.network_path "/ngp/configs/nerf" ∅ "fox" "")
  = "base"%string.
Proof.
  apply (default_network_stem "/ngp/configs/nerf" ∅ "fox"). reflexivity.
Defined.
